(** * TelegramBotQwen: a shallow embedding of [bot.py]

    The bot relays Telegram text messages to the Qwen application API,
    keeping one conversation history per chat in PostgreSQL.  This file
    embeds the text helpers ([clean_markdown], [format_list_as_markdown]),
    the chunked delivery ([send_message_in_chunks]), the context store
    ([get_db_connection], [get_context], [save_context]) and the
    message handler ([handle_message]), and states the properties of the
    written specification about them.

    Python strings are sequences of Unicode code points: a text is a list
    of code points, so that [len], slicing and [split] count what Python
    counts. *)

From Stdlib Require Import ZArith NArith List Ascii String Bool Lia.
From stdpp Require Import base option list gmap.
Import ListNotations.

Local Open Scope Z_scope.

(** ** Text *)

Module Text.

Definition char := N.
Definition text := list char.

(** An ASCII literal as a text. *)
Definition str (s : string) : text :=
  List.map N_of_ascii (list_ascii_of_string s).

Definition nl : char := 10%N.          (* "\n" *)
Definition backslash : char := 92%N.   (* "\\" *)
Definition bullet : char := 8226%N.    (* U+2022 *)
Definition space : char := 32%N.

Definition len (s : text) : Z := Z.of_nat (length s).

(** [str.isspace] of one code point: the characters [str.strip()]
    removes when called without argument. *)
Definition isspace (c : char) : bool :=
  ((9 <=? c) && (c <=? 13) || (28 <=? c) && (c <=? 32)
   || (c =? 133) || (c =? 160) || (c =? 5760)
   || (8192 <=? c) && (c <=? 8202)
   || (c =? 8232) || (c =? 8233) || (c =? 8239) || (c =? 8287)
   || (c =? 12288))%N.

Fixpoint lstrip (s : text) : text :=
  match s with
  | c :: s' => if isspace c then lstrip s' else s
  | [] => []
  end.

Definition rstrip (s : text) : text := rev (lstrip (rev s)).

(** [s.strip()] *)
Definition strip (s : text) : text := rstrip (lstrip s).

(** [s.startswith(prefix)] *)
Fixpoint startswith (s prefix : text) : bool :=
  match prefix, s with
  | [], _ => true
  | p :: prefix', c :: s' => (c =? p)%N && startswith s' prefix'
  | _ :: _, [] => false
  end.

(** [s.split(sep)] for a one-character separator: never empty. *)
Fixpoint split (s : text) (sep : char) : list text :=
  match s with
  | [] => [[]]
  | c :: s' =>
      if (c =? sep)%N then [] :: split s' sep
      else match split s' sep with
           | l :: ls => (c :: l) :: ls
           | [] => [[c]]
           end
  end.

(** [sep.join(parts)] *)
Fixpoint join (sep : text) (parts : list text) : text :=
  match parts with
  | [] => []
  | [p] => p
  | p :: ps => p ++ sep ++ join sep ps
  end.

(** [s.replace(old, new)] for a one-character [old]. *)
Fixpoint replace (s : text) (old : char) (new : text) : text :=
  match s with
  | [] => []
  | c :: s' =>
      (if (c =? old)%N then new else [c]) ++ replace s' old new
  end.

(** A slice bound as CPython adjusts it: a negative bound counts from
    the end, and every bound is clamped to [0 .. n]; an omitted bound
    is the default [dflt]. *)
Definition slice_index (n dflt : Z) (i : option Z) : Z :=
  match i with
  | None => dflt
  | Some i => if i <? 0 then Z.max (i + n) 0 else Z.min i n
  end.

(** [s[start:stop]] *)
Definition slice (s : text) (start stop : option Z) : text :=
  let n := len s in
  let a := slice_index n 0 start in
  let b := slice_index n n stop in
  take (Z.to_nat (b - a)) (drop (Z.to_nat a) s).

(** [len(range(start, stop, step))] for a non-zero step. *)
Definition range_len (start stop step : Z) : Z :=
  if 0 <? step
  then (if start <? stop then (stop - start - 1) / step + 1 else 0)
  else (if stop <? start then (start - stop - 1) / (- step) + 1 else 0).

(** [range(start, stop, step)]; [None] is the ValueError of a zero
    step. *)
Definition range (start stop step : Z) : option (list Z) :=
  if step =? 0 then None
  else Some (List.map (fun k => start + Z.of_nat k * step)
               (seq 0 (Z.to_nat (range_len start stop step)))).

End Text.
Import Text.

(** ** The output formatter *)

(** [clean_markdown]: every backslash is replaced by the empty string. *)
Definition clean_markdown (t : text) : text := replace t backslash [].

(** One iteration of the loop of [format_list_as_markdown]: the text
    accumulated so far and the next line. *)
Definition format_step (formatted_text line : text) : text :=
  if startswith (strip line) (str "-") then
    formatted_text ++ (bullet :: space :: strip (slice line (Some 1) None)) ++ [nl]
  else if startswith (strip line) (str "1.")
          || startswith (strip line) (str "2.")
          || startswith (strip line) (str "3.")
          || startswith (strip line) (str "4.")
          || startswith (strip line) (str "5.") then
    formatted_text ++ strip line ++ [nl]
  else
    formatted_text ++ strip line ++ [nl].

Definition format_list_as_markdown (response_text : text) : text :=
  let lines := split response_text nl in
  fold_left format_step lines [].

(** ** Conversation histories and the context table *)

Inductive Role := user | assistant.

(** A turn is the dict [{'role': ..., 'content': ...}]. *)
Record Turn := { role : Role; content : text }.

Definition History := list Turn.

(** The [context] column of one row of [user_context], by what
    [get_context] can do with it: [BlobNull] is a falsy value (NULL or
    the empty string), [BlobJson h] is the text [json.dumps(h)], which
    [json.loads] turns back into [h], and [BlobCorrupt] is a text that
    [json.loads] rejects.  [save_context] is the only writer of the
    table and writes [BlobJson] values only. *)
Inductive Blob :=
| BlobNull
| BlobJson (h : History)
| BlobCorrupt.

Definition chat_id_t := Z.

(** ** Collaborators

    Every awaited call on a collaborator (asyncpg, the Telegram
    transport, dashscope) is an operation that either completes or
    raises.  A run records the operations it attempts, in order, with
    their outcome.  The calls of [logger] are left out: they change
    neither the table nor what the user receives, and the code never
    depends on them.  Every exception of the model is an [Exception],
    which [except Exception] catches. *)

Inductive Op :=
| OpConnect                                         (* asyncpg.connect(...) *)
| OpFetchrow (chat_id : chat_id_t)                  (* conn.fetchrow(SELECT ...) *)
| OpUpsert (chat_id : chat_id_t) (context : Blob)   (* conn.execute(INSERT ... ON CONFLICT ...) *)
| OpClose                                           (* conn.close() *)
| OpReplyText (t : text)                            (* update.message.reply_text(t) *)
| OpDeleteMessage (message : nat)                   (* message.delete() *)
| OpCall (prompt : text) (messages : list Turn).    (* dashscope.Application.call(...) *)

Record Event := { ev_op : Op; ev_ok : bool }.

Definition done_ok (o : Op) : Event := {| ev_op := o; ev_ok := true |}.
Definition failed (o : Op) : Event := {| ev_op := o; ev_ok := false |}.

Inductive Exn :=
| CollaboratorError (o : Op)   (* the operation [o] raised *)
| JSONDecodeError              (* json.loads on a corrupt text *)
| LookupError                  (* response['output']['text'] cannot be read *)
| ValueError.                  (* range() with a zero step *)

(** What dashscope returns: a falsy value, a truthy value without the
    key ['output'], or a value with the key ['output'] whose ['text'] is
    a string ([Some]) or cannot be read as one ([None]). *)
Inductive Response :=
| NoResponse
| WithoutOutput
| Output (t : option text).

(** The world of one run: the table [user_context] and the operations
    attempted so far. *)
Record World := { db : gmap Z Blob; trace : list Event }.

(** The environment decides, for the n-th operation of a run, whether it
    raises, and what the LLM answers. *)
Record Env := {
  op_fails : nat -> bool;
  llm_response : nat -> text -> list Turn -> Response
}.

(** ** A state and exception monad *)

Inductive Outcome (A : Type) :=
| Ok (a : A)
| Raise (e : Exn).
Arguments Ok {A} a.
Arguments Raise {A} e.

Definition M (A : Type) : Type := World -> Outcome A * World.

Definition ret {A} (a : A) : M A := fun w => (Ok a, w).

Definition raise {A} (e : Exn) : M A := fun w => (Raise e, w).

Definition bind {A B} (m : M A) (k : A -> M B) : M B :=
  fun w =>
    match m w with
    | (Ok a, w') => k a w'
    | (Raise e, w') => (Raise e, w')
    end.

(** [try: m  except Exception as e: h e] *)
Definition try_except {A} (m : M A) (h : Exn -> M A) : M A :=
  fun w =>
    match m w with
    | (Ok a, w') => (Ok a, w')
    | (Raise e, w') => h e w'
    end.

(** [try: m  finally: f]: [f] runs on every exit of [m]; an exception of
    [f] replaces the outcome of [m]. *)
Definition try_finally {A} (m : M A) (f : M unit) : M A :=
  fun w =>
    match m w with
    | (r, w') =>
        match f w' with
        | (Ok _, w'') => (r, w'')
        | (Raise e, w'') => (Raise e, w'')
        end
    end.

Declare Scope bot_scope.
Delimit Scope bot_scope with bot.
Notation "'let*' x := c1 'in' c2" := (bind c1 (fun x => c2))
  (at level 10, x name, c1 at level 100, c2 at level 200) : bot_scope.
Notation "'let*' '_' := c1 'in' c2" := (bind c1 (fun _ => c2))
  (at level 10, c1 at level 100, c2 at level 200) : bot_scope.
Local Open Scope bot_scope.

(** [for x in l: body x] *)
Fixpoint for_each {A} (l : list A) (body : A -> M unit) : M unit :=
  match l with
  | [] => ret tt
  | x :: l' => let* _ := body x in for_each l' body
  end.

(** The messages shown to the user. *)
Definition typing_text : text :=      (* "Pechataet..." in Cyrillic *)
  [1055; 1077; 1095; 1072; 1090; 1072; 1077; 1090; 46; 46; 46]%N.

Definition no_response_text : text := (* "Ne udalos' poluchit' otvet ot API. Poprobuite pozzhe." *)
  [1053; 1077; 32; 1091; 1076; 1072; 1083; 1086; 1089; 1100; 32; 1087;
   1086; 1083; 1091; 1095; 1080; 1090; 1100; 32; 1086; 1090; 1074; 1077;
   1090; 32; 1086; 1090; 32; 65; 80; 73; 46; 32; 1055; 1086; 1087; 1088;
   1086; 1073; 1091; 1081; 1090; 1077; 32; 1087; 1086; 1079; 1078; 1077;
   46]%N.

Definition failure_text : text :=     (* "Proizoshla oshibka pri otpravke zaprosa." *)
  [1055; 1088; 1086; 1080; 1079; 1086; 1096; 1083; 1072; 32; 1086; 1096;
   1080; 1073; 1082; 1072; 32; 1087; 1088; 1080; 32; 1086; 1090; 1087;
   1088; 1072; 1074; 1082; 1077; 32; 1079; 1072; 1087; 1088; 1086; 1089;
   1072; 46]%N.

(** The chunk of every iteration of [send_message_in_chunks], in order. *)
Definition chunks (content : text) (max_chunk_size : Z) : list text :=
  match range 0 (len content) max_chunk_size with
  | Some offsets =>
      List.map (fun i => slice content (Some i) (Some (i + max_chunk_size))) offsets
  | None => []
  end.

Definition json_dumps (context : History) : Blob := BlobJson context.

Definition json_loads (b : Blob) : M History :=
  match b with
  | BlobJson h => ret h
  | _ => raise JSONDecodeError
  end.

(** Truth value of the column: NULL and the empty string are falsy. *)
Definition truthy (b : Blob) : bool :=
  match b with BlobNull => false | _ => true end.

Section Bot.

Variable env : Env.

Definition record (e : Event) (w : World) : World :=
  {| db := db w; trace := trace w ++ [e] |}.

(** Attempt one operation: the environment says whether it raises. *)
Definition perform (o : Op) : M unit :=
  fun w =>
    if op_fails env (length (trace w))
    then (Raise (CollaboratorError o), record (failed o) w)
    else (Ok tt, record (done_ok o) w).

Definition asyncpg_connect : M unit := perform OpConnect.

Definition conn_fetchrow (chat_id : chat_id_t) : M (option Blob) :=
  let* _ := perform (OpFetchrow chat_id) in
  fun w => (Ok (db w !! chat_id), w).

Definition conn_execute_upsert (chat_id : chat_id_t) (context : Blob) : M unit :=
  let* _ := perform (OpUpsert chat_id context) in
  fun w => (Ok tt, {| db := <[chat_id := context]> (db w); trace := trace w |}).

Definition conn_close : M unit := perform OpClose.

(** [update.message.reply_text(t)]: the sent message is identified by
    its position in the run. *)
Definition reply_text (t : text) : M nat :=
  fun w => bind (perform (OpReplyText t)) (fun _ => ret (length (trace w))) w.

Definition message_delete (message : nat) : M unit :=
  perform (OpDeleteMessage message).

Definition application_call (prompt : text) (messages : list Turn) : M Response :=
  fun w =>
    bind (perform (OpCall prompt messages))
         (fun _ => ret (llm_response env (length (trace w)) prompt messages)) w.

(** [get_db_connection]: a failure is logged and raised again. *)
Definition get_db_connection : M unit :=
  try_except
    (let* conn := asyncpg_connect in ret conn)
    (fun e => raise e).

Definition save_context (chat_id : chat_id_t) (context : History) : M unit :=
  let* conn := get_db_connection in
  try_finally
    (try_except
       (conn_execute_upsert chat_id (json_dumps context))
       (fun e => ret tt))
    conn_close.

Definition get_context (chat_id : chat_id_t) : M History :=
  let* conn := get_db_connection in
  try_finally
    (try_except
       (let* result := conn_fetchrow chat_id in
        match result with
        | Some context =>
            if truthy context then json_loads context else ret []
        | None => ret []
        end)
       (fun e => ret []))
    conn_close.

Definition send_message_in_chunks (content : text) (max_chunk_size : Z) : M unit :=
  match range 0 (len content) max_chunk_size with
  | None => raise ValueError
  | Some offsets =>
      for_each offsets (fun i =>
        let chunk := slice content (Some i) (Some (i + max_chunk_size)) in
        let* _ := reply_text chunk in ret tt)
  end.

Definition handle_message (chat_id : chat_id_t) (user_message : text) : M unit :=
  let* context_data := get_context chat_id in
  (* if not context_data: context_data = [] *)
  let context_data :=
    match context_data with [] => [] | _ => context_data end in
  let user_message_escaped := clean_markdown user_message in
  let context_data :=
    context_data ++ [{| role := user; content := user_message_escaped |}] in
  try_except
    (let* typing_message := reply_text typing_text in
     let messages :=
       List.map (fun msg => {| role := role msg; content := content msg |})
                context_data in
     let* response := application_call user_message_escaped messages in
     let* _ :=
       (match response with
       | Output (Some output_content) =>
           let formatted_output := format_list_as_markdown output_content in
           let clean_output := clean_markdown formatted_output in
           let* _ :=
             try_except
               (send_message_in_chunks clean_output 4096)
               (fun e => send_message_in_chunks output_content 4096) in
           let context_data :=
             context_data ++ [{| role := assistant; content := clean_output |}] in
           save_context chat_id context_data
       | Output None => raise LookupError
       | NoResponse | WithoutOutput =>
           let* _ := reply_text no_response_text in ret tt
        end) in
     message_delete typing_message)
    (fun e => let* _ := reply_text failure_text in ret tt).

End Bot.

(** ** Definitions used by the statements *)

(** The output of one loop iteration without its newline: what the code
    makes of one line. *)
Definition format_line (line : text) : text :=
  if startswith (strip line) (str "-")
  then bullet :: space :: strip (slice line (Some 1) None)
  else strip line.

(** The line rule in the words of the specification: the test and the
    remainder are both taken on the trimmed line. *)
Definition normalize_line_spec (line : text) : text :=
  let trimmed := strip line in
  if startswith trimmed (str "-")
  then bullet :: space :: strip (drop 1 trimmed)
  else trimmed.

Definition normalize_lists_spec (t : text) : text :=
  concat (List.map (fun line => normalize_line_spec line ++ [nl]) (split t nl)).

(** A text [c] occurs in [t] as a contiguous piece. *)
Definition substring (c t : text) : Prop :=
  exists before after, t = before ++ c ++ after.

(** The world after more operations have been recorded. *)
Definition extend (w : World) (evs : list Event) : World :=
  {| db := db w; trace := trace w ++ evs |}.

(** The history that the table holds for a chat: the decoded column of
    its row, and the empty history when there is no row or the column is
    falsy or not decodable. *)
Definition stored_history (d : gmap Z Blob) (chat_id : chat_id_t) : History :=
  match d !! chat_id with
  | Some (BlobJson h) => h
  | _ => []
  end.

(** The body of the loop of [send_message_in_chunks] for one chunk. *)
Definition send_text (env : Env) (chunk : text) : M unit :=
  let* _ := reply_text env chunk in ret tt.

(** The event of a delivered text. *)
Definition delivered (t : text) : Event := done_ok (OpReplyText t).

(** A reply that is absent (falsy) or lacks the key ['output']. *)
Definition malformed (r : Response) : bool :=
  match r with
  | NoResponse | WithoutOutput => true
  | Output _ => false
  end.

Definition is_upsert (o : Op) : bool :=
  match o with OpUpsert _ _ => true | _ => false end.

Definition is_call (o : Op) : bool :=
  match o with OpCall _ _ => true | _ => false end.

(** An environment in which only the [k]-th operation raises, and the
    LLM always answers [reply]. *)
Definition env_failing_at (k : nat) (reply : Response) : Env :=
  {| op_fails := fun n => Nat.eqb n k; llm_response := fun _ _ _ => reply |}.

(** An environment in which nothing raises. *)
Definition env_reliable (reply : Response) : Env :=
  {| op_fails := fun _ => false; llm_response := fun _ _ _ => reply |}.

(** The empty table before any operation. *)
Definition world0 : World := {| db := ∅; trace := [] |}.

(** The blocks of [handle_message], named for the statements: the
    handler of the outer [except], the branch of a usable reply (from the
    formatting to the saving), and the body of the outer [try]. *)
Definition report_failure (env : Env) (e : Exn) : M unit :=
  let* _ := reply_text env failure_text in ret tt.

Definition report_no_response (env : Env) : M unit :=
  let* _ := reply_text env no_response_text in ret tt.

Definition respond (env : Env) (chat_id : chat_id_t) (context_data : History)
    (output_content : text) : M unit :=
  let formatted_output := format_list_as_markdown output_content in
  let clean_output := clean_markdown formatted_output in
  let* _ :=
    try_except
      (send_message_in_chunks env clean_output 4096)
      (fun e => send_message_in_chunks env output_content 4096) in
  let context_data :=
    context_data ++ [{| role := assistant; content := clean_output |}] in
  save_context env chat_id context_data.

Definition exchange (env : Env) (chat_id : chat_id_t) (context_data : History)
    (user_message_escaped : text) : M unit :=
  let* typing_message := reply_text env typing_text in
  let messages :=
    List.map (fun msg => {| role := role msg; content := content msg |})
             context_data in
  let* response := application_call env user_message_escaped messages in
  let* _ :=
    (match response with
     | Output (Some output_content) =>
         respond env chat_id context_data output_content
     | Output None => raise LookupError
     | NoResponse | WithoutOutput =>
         let* _ := reply_text env no_response_text in ret tt
     end) in
  message_delete env typing_message.

(** The user turn that [handle_message] appends. *)
Definition user_turn (user_message : text) : Turn :=
  {| role := user; content := clean_markdown user_message |}.

(** The assistant turn that [handle_message] appends for a reply. *)
Definition assistant_turn (output_content : text) : Turn :=
  {| role := assistant;
     content := clean_markdown (format_list_as_markdown output_content) |}.

(** What a run leaves when it writes nothing: the table is unchanged,
    no write is attempted, and a returned LLM call is followed by the
    no-response message. *)
Definition leaves_history (w w' : World) : Prop :=
  db w' = db w
  /\ exists evs : list Event,
       trace w' = trace w ++ evs
       /\ Forall (fun e => is_upsert (ev_op e) = false) evs
       /\ (forall (p : text) (ms : list Turn),
             In (done_ok (OpCall p ms)) evs ->
             In (OpReplyText no_response_text) (List.map ev_op evs)).

(** The events of a load and of a save in which nothing raises. *)
Definition loaded (chat_id : chat_id_t) : list Event :=
  [done_ok OpConnect; done_ok (OpFetchrow chat_id); done_ok OpClose].

Definition saved_as (chat_id : chat_id_t) (h : History) : list Event :=
  [done_ok OpConnect; done_ok (OpUpsert chat_id (BlobJson h)); done_ok OpClose].

(** The events of a run up to the returned call of the LLM. *)
Definition asked (chat_id : chat_id_t) (prompt : text) (messages : History) : list Event :=
  loaded chat_id ++ [delivered typing_text; done_ok (OpCall prompt messages)].

(** ** The remaining handlers and the start of the process *)

(** [clear_history] issues a DELETE, an operation the message handler
    never performs: it runs in a world of its own, with the same table
    and its own record of operations. *)
Module ClearHistory.

Inductive Op :=
| OpConnect                          (* asyncpg.connect(...) *)
| OpDeleteRow (chat_id : chat_id_t)  (* conn.execute(DELETE ...) *)
| OpClose                            (* conn.close() *)
| OpReplyText (t : text).            (* update.message.reply_text(t) *)

Record Event := { ev_op : Op; ev_ok : bool }.

Definition done_ok (o : Op) : Event := {| ev_op := o; ev_ok := true |}.
Definition failed (o : Op) : Event := {| ev_op := o; ev_ok := false |}.

Inductive Exn := CollaboratorError (o : Op).

Inductive Outcome (A : Type) :=
| Ok (a : A)
| Raise (e : Exn).
Arguments Ok {A} a.
Arguments Raise {A} e.

Record World := { db : gmap Z Blob; trace : list Event }.

Definition M (A : Type) : Type := World -> Outcome A * World.

Definition ret {A} (a : A) : M A := fun w => (Ok a, w).

Definition raise {A} (e : Exn) : M A := fun w => (Raise e, w).

Definition bind {A B} (m : M A) (k : A -> M B) : M B :=
  fun w =>
    match m w with
    | (Ok a, w') => k a w'
    | (Raise e, w') => (Raise e, w')
    end.

Definition try_except {A} (m : M A) (h : Exn -> M A) : M A :=
  fun w =>
    match m w with
    | (Ok a, w') => (Ok a, w')
    | (Raise e, w') => h e w'
    end.

Definition try_finally {A} (m : M A) (f : M unit) : M A :=
  fun w =>
    match m w with
    | (r, w') =>
        match f w' with
        | (Ok _, w'') => (r, w'')
        | (Raise e, w'') => (Raise e, w'')
        end
    end.

(** "Istoriya uspeshno udalena." *)
Definition cleared_text : text :=
  [1048; 1089; 1090; 1086; 1088; 1080; 1103; 32; 1091; 1089; 1087; 1077;
   1096; 1085; 1086; 32; 1091; 1076; 1072; 1083; 1077; 1085; 1072; 46]%N.

(** "Proizoshla oshibka pri udalenii istorii." *)
Definition not_cleared_text : text :=
  [1055; 1088; 1086; 1080; 1079; 1086; 1096; 1083; 1072; 32; 1086; 1096;
   1080; 1073; 1082; 1072; 32; 1087; 1088; 1080; 32; 1091; 1076; 1072;
   1083; 1077; 1085; 1080; 1080; 32; 1080; 1089; 1090; 1086; 1088; 1080;
   1080; 46]%N.

(** The [n]-th operation of the run raises when [op_fails n]. *)
Definition perform (op_fails : nat -> bool) (o : Op) : M unit :=
  fun w =>
    if op_fails (length (trace w))
    then (Raise (CollaboratorError o),
          {| db := db w; trace := trace w ++ [failed o] |})
    else (Ok tt, {| db := db w; trace := trace w ++ [done_ok o] |}).

Definition conn_execute_delete (op_fails : nat -> bool) (chat_id : chat_id_t) : M unit :=
  bind (perform op_fails (OpDeleteRow chat_id))
       (fun _ w => (Ok tt, {| db := delete chat_id (db w); trace := trace w |})).

Definition get_db_connection (op_fails : nat -> bool) : M unit :=
  try_except
    (bind (perform op_fails OpConnect) (fun conn => ret conn))
    (fun e => raise e).

Definition clear_history (op_fails : nat -> bool) (chat_id : chat_id_t) : M unit :=
  bind (get_db_connection op_fails) (fun conn =>
    try_finally
      (try_except
         (bind (conn_execute_delete op_fails chat_id) (fun _ =>
            perform op_fails (OpReplyText cleared_text)))
         (fun e => perform op_fails (OpReplyText not_cleared_text)))
      (perform op_fails OpClose)).

End ClearHistory.

(** The module-level start of the process: the environment is read, the
    port is converted with [int], and the process exits with status 1
    when a required value is missing or empty.  [getenv] is the
    environment after [load_dotenv]; [py_int] is [int] on a string,
    [None] being its ValueError. *)
Module Startup.

Inductive Start :=
| TypeError          (* int(None): POSTGRES_PORT is not set *)
| ValueError         (* int(s) on a text that is no integer *)
| Exit (status : Z)  (* exit(1) *)
| Running (port : Z).

(** [not v] for the value of [os.getenv]. *)
Definition unset (v : option string) : bool :=
  match v with
  | None => true
  | Some EmptyString => true
  | Some (String _ _) => false
  end.

Definition module_start (getenv : string -> option string)
    (py_int : string -> option Z) : Start :=
  let TELEGRAM_BOT_TOKEN := getenv "TELEGRAM_BOT_TOKEN"%string in
  let QWEN_APP_ID := getenv "QWEN_APP_ID"%string in
  let QWEN_API_KEY := getenv "QWEN_API_KEY"%string in
  let POSTGRES_USER := getenv "POSTGRES_USER"%string in
  let POSTGRES_PASSWORD := getenv "POSTGRES_PASSWORD"%string in
  let POSTGRES_HOST := getenv "POSTGRES_HOST"%string in
  match getenv "POSTGRES_PORT"%string with
  | None => TypeError
  | Some port_text =>
      match py_int port_text with
      | None => ValueError
      | Some POSTGRES_PORT =>
          let POSTGRES_DB := getenv "POSTGRES_DB"%string in
          if unset TELEGRAM_BOT_TOKEN || unset QWEN_APP_ID || unset QWEN_API_KEY
          then Exit 1
          else if unset POSTGRES_USER || unset POSTGRES_PASSWORD
                  || unset POSTGRES_HOST || (POSTGRES_PORT =? 0)
                  || unset POSTGRES_DB
          then Exit 1
          else Running POSTGRES_PORT
      end
  end.

(** The variables the process reads as texts; the eighth,
    POSTGRES_PORT, is read as a number. *)
Definition required : list string :=
  ["TELEGRAM_BOT_TOKEN"; "QWEN_APP_ID"; "QWEN_API_KEY"; "POSTGRES_USER";
   "POSTGRES_PASSWORD"; "POSTGRES_HOST"; "POSTGRES_DB"]%string.

End Startup.

(** ** Relations between the worlds of a run *)

(** Every run of [m] relates its first world to its last by [R]. *)
Definition preserves {A} (R : World -> World -> Prop) (m : M A) : Prop :=
  forall (w w' : World) (r : Outcome A), m w = (r, w') -> R w w'.

(** The table changes within [D] and the run adds operations that all
    satisfy [P]. *)
Definition kept (D : gmap Z Blob -> gmap Z Blob -> Prop) (P : Event -> Prop)
    (w w' : World) : Prop :=
  D (db w) (db w')
  /\ exists evs : list Event, trace w' = trace w ++ evs /\ Forall P evs.

(** The rows of the chats other than [chat_id] are the same. *)
Definition other_rows_alone (chat_id : chat_id_t) (d d' : gmap Z Blob) : Prop :=
  forall c : chat_id_t, c <> chat_id -> d' !! c = d !! c.

(** A text handed to the transport is not empty and within the size
    ceiling. *)
Definition fits_transport (e : Event) : Prop :=
  match ev_op e with
  | OpReplyText t => 1 <= len t <= 4096
  | _ => True
  end.

(** An operation on the table concerns the row of [chat_id] only. *)
Definition own_row (chat_id : chat_id_t) (e : Event) : Prop :=
  match ev_op e with
  | OpFetchrow c => c = chat_id
  | OpUpsert c _ => c = chat_id
  | _ => True
  end.

(** The connections a run opened, and the closings it attempted. *)
Definition opened (evs : list Event) : nat :=
  length (List.filter (fun e => match e with
                                | {| ev_op := OpConnect; ev_ok := true |} => true
                                | _ => false
                                end) evs).

Definition closings (evs : list Event) : nat :=
  length (List.filter (fun e => match ev_op e with
                                | OpClose => true
                                | _ => false
                                end) evs).

(** Every connection a run opened, it tried to close. *)
Definition releases (w w' : World) : Prop :=
  exists evs : list Event,
    trace w' = trace w ++ evs /\ opened evs = closings evs.

(** The calls of the LLM a run attempted. *)
Definition calls (evs : list Event) : nat :=
  length (List.filter (fun e => is_call (ev_op e)) evs).

(** Two exchanges one after the other, as the dispatcher runs the
    handler on two messages of one chat. *)
Definition two_messages (env : Env) (chat_id : chat_id_t)
    (first second : text) : M unit :=
  let* _ := handle_message env chat_id first in
  handle_message env chat_id second.

(** The number of newline characters of a text. *)
Definition newlines (t : text) : nat :=
  length (List.filter (fun c => (c =? nl)%N) t).

(** The table is the same in both worlds. *)
Definition same_table (w w' : World) : Prop := db w' = db w.

(** The operations of an exchange in which nothing raises, for a run
    that starts as the [n]-th operation. *)
Definition exchanged (n : nat) (chat_id : chat_id_t) (prompt : text)
    (sent : History) (raw : text) : list Event :=
  asked chat_id prompt sent
  ++ List.map delivered (chunks (clean_markdown (format_list_as_markdown raw)) 4096)
  ++ saved_as chat_id (sent ++ [assistant_turn raw])
  ++ [done_ok (OpDeleteMessage (n + 3))].

(** A run that adds at most [k] calls of the LLM. *)
Definition calls_at_most (k : nat) (w w' : World) : Prop :=
  exists evs : list Event, trace w' = trace w ++ evs /\ (calls evs <= k)%nat.

(** * Properties *)

(** ** The Python primitives on examples *)

Example range_by_step : range 0 10 4 = Some [0; 4; 8].
Proof. reflexivity. Qed.

Example range_exact_multiple : range 0 8 4 = Some [0; 4].
Proof. reflexivity. Qed.

Example range_zero_step : range 0 10 0 = None.
Proof. reflexivity. Qed.

Example range_negative_step : range 0 10 (-1) = Some [].
Proof. reflexivity. Qed.

Example slice_past_the_end : slice (str "abcdef") (Some 4) (Some 8) = str "ef".
Proof. reflexivity. Qed.

Example slice_open_end : slice (str "abcdef") (Some 1) None = str "bcdef".
Proof. reflexivity. Qed.

Example slice_negative_start : slice (str "abcdef") (Some (-2)) None = str "ef".
Proof. reflexivity. Qed.

Example split_keeps_empty_lines :
  split (str "a" ++ [nl; nl] ++ str "b" ++ [nl]) nl = [str "a"; []; str "b"; []].
Proof. reflexivity. Qed.

Example strip_both_sides : strip (str "  a b " ++ [9%N; nl]) = str "a b".
Proof. reflexivity. Qed.

Example startswith_longer_prefix : startswith (str "1") (str "1.") = false.
Proof. reflexivity. Qed.

Example chunks_of_seven_by_three :
  chunks (str "abcdefg") 3 = [str "abc"; str "def"; str "g"].
Proof. reflexivity. Qed.

Example format_numbered_and_plain :
  format_list_as_markdown (str " 2. b " ++ [nl] ++ str "-c" ++ [nl] ++ str " text")
  = str "2. b" ++ [nl] ++ bullet :: str " c" ++ [nl] ++ str "text" ++ [nl].
Proof. reflexivity. Qed.

(** ** Escape stripping *)

Lemma clean_markdown_cons (c : char) (t : text) :
  clean_markdown (c :: t) =
  if (c =? backslash)%N then clean_markdown t else c :: clean_markdown t.
Proof. unfold clean_markdown; simpl. destruct (c =? backslash)%N; reflexivity. Qed.

Lemma clean_markdown_filter (t : text) :
  clean_markdown t = List.filter (fun c => negb (c =? backslash)%N) t.
Proof.
  induction t as [|c t IH]; [reflexivity|].
  rewrite clean_markdown_cons. cbn [List.filter].
  destruct (c =? backslash)%N; cbn [negb]; [exact IH | f_equal; exact IH].
Qed.

Lemma clean_markdown_no_backslash (t : text) :
  ~ In backslash (clean_markdown t).
Proof.
  rewrite clean_markdown_filter, filter_In.
  intros [_ H]. rewrite N.eqb_refl in H. discriminate.
Qed.

Lemma clean_markdown_fixed (t : text) :
  ~ In backslash t -> clean_markdown t = t.
Proof.
  induction t as [|c t IH]; intros Hnot; [reflexivity|].
  rewrite clean_markdown_cons.
  destruct (N.eqb_spec c backslash) as [->|_].
  - exfalso. apply Hnot. now left.
  - f_equal. apply IH. intros Hin. apply Hnot. now right.
Qed.

Lemma clean_markdown_app (s t : text) :
  clean_markdown (s ++ t) = clean_markdown s ++ clean_markdown t.
Proof. rewrite !clean_markdown_filter. apply List.filter_app. Qed.

(** C7: [clean_markdown] deletes every backslash, whatever follows it,
    and keeps all other characters in their order: the result is the
    text filtered by "is not a backslash", it holds no backslash, and
    [a\*b] (also [a\\*b]) becomes [a*b]. *)
Theorem clean_markdown_deletes_every_backslash (t : text) :
  clean_markdown t = List.filter (fun c => negb (c =? backslash)%N) t
  /\ ~ In backslash (clean_markdown t)
  /\ clean_markdown (str "a" ++ [backslash] ++ str "*b") = str "a*b"
  /\ clean_markdown (str "a" ++ [backslash; backslash] ++ str "*b") = str "a*b".
Proof.
  split; [apply clean_markdown_filter|].
  split; [apply clean_markdown_no_backslash|].
  split; reflexivity.
Qed.

(** C10: [clean_markdown] is idempotent: stripping a stripped text
    removes nothing more. *)
Theorem clean_markdown_idempotent (t : text) :
  clean_markdown (clean_markdown t) = clean_markdown t.
Proof. apply clean_markdown_fixed, clean_markdown_no_backslash. Qed.

(** ** List normalisation *)

Lemma format_step_line (formatted_text line : text) :
  format_step formatted_text line = formatted_text ++ format_line line ++ [nl].
Proof.
  unfold format_step, format_line.
  destruct (startswith (strip line) (str "-")); [reflexivity|].
  now destruct (_ || _).
Qed.

Lemma fold_format_step (lines : list text) (acc : text) :
  fold_left format_step lines acc =
  acc ++ concat (List.map (fun line => format_line line ++ [nl]) lines).
Proof.
  revert acc. induction lines as [|l lines IH]; intros acc; simpl.
  - now rewrite app_nil_r.
  - rewrite IH, format_step_line. now rewrite <- !app_assoc.
Qed.

Lemma format_list_as_markdown_lines (t : text) :
  format_list_as_markdown t =
  concat (List.map (fun line => format_line line ++ [nl]) (split t nl)).
Proof. unfold format_list_as_markdown. now rewrite fold_format_step. Qed.

Lemma concat_lines_join (parts : list text) :
  parts <> [] ->
  concat (List.map (fun p => p ++ [nl]) parts) = join [nl] parts ++ [nl].
Proof.
  induction parts as [|p parts IH]; [congruence|]. intros _.
  destruct parts as [|q parts].
  - simpl. now rewrite app_nil_r.
  - change (concat (List.map (fun p => p ++ [nl]) (p :: q :: parts)))
      with ((p ++ [nl]) ++ concat (List.map (fun p => p ++ [nl]) (q :: parts))).
    rewrite IH by congruence.
    change (join [nl] (p :: q :: parts)) with (p ++ [nl] ++ join [nl] (q :: parts)).
    now rewrite <- !app_assoc.
Qed.

Lemma split_nonempty (t : text) (sep : char) : split t sep <> [].
Proof.
  destruct t as [|c t]; simpl; [congruence|].
  destruct (c =? sep)%N; [congruence|].
  destruct (split t sep); congruence.
Qed.

Lemma slice_from (s : text) (n : nat) :
  slice s (Some (Z.of_nat n)) None = drop n s.
Proof.
  unfold slice, slice_index, len.
  destruct (Z.ltb_spec (Z.of_nat n) 0) as [Hneg|_]; [lia|].
  destruct (Z.min_spec (Z.of_nat n) (Z.of_nat (length s))) as [[Hlt ->]|[Hge ->]].
  - rewrite Nat2Z.id. apply take_ge. rewrite length_drop. lia.
  - rewrite Nat2Z.id, Z.sub_diag. simpl.
    symmetry. apply drop_ge. lia.
Qed.

(** *** Trimming *)

Lemma lstrip_length (s : text) : (length (lstrip s) <= length s)%nat.
Proof.
  induction s as [|c s IH]; simpl; [lia|].
  destruct (isspace c); simpl; lia.
Qed.

Lemma lstrip_idempotent (s : text) : lstrip (lstrip s) = lstrip s.
Proof.
  induction s as [|c s IH]; [reflexivity|]. simpl.
  destruct (isspace c) eqn:Hc; [exact IH|]. simpl. now rewrite Hc.
Qed.

Lemma lstrip_snoc (s : text) (c : char) :
  lstrip (s ++ [c]) =
  match lstrip s with
  | [] => if isspace c then [] else [c]
  | _ :: _ => lstrip s ++ [c]
  end.
Proof.
  induction s as [|a s IH]; [reflexivity|]. simpl.
  destruct (isspace a); [exact IH | reflexivity].
Qed.

Lemma rstrip_cons (c : char) (s : text) :
  rstrip (c :: s) =
  match rstrip s with
  | [] => if isspace c then [] else [c]
  | _ :: _ => c :: rstrip s
  end.
Proof.
  unfold rstrip. simpl. rewrite lstrip_snoc.
  destruct (lstrip (rev s)) as [|x l].
  - simpl. now destruct (isspace c).
  - rewrite rev_app_distr. simpl.
    destruct (rev l ++ [x]) eqn:Hrev; [|reflexivity].
    now apply app_eq_nil in Hrev as [_ ?].
Qed.

Lemma rstrip_length (s : text) : (length (rstrip s) <= length s)%nat.
Proof.
  unfold rstrip. rewrite length_rev.
  etransitivity; [apply lstrip_length|]. now rewrite length_rev.
Qed.

Lemma rstrip_idempotent (s : text) : rstrip (rstrip s) = rstrip s.
Proof. unfold rstrip. now rewrite rev_involutive, lstrip_idempotent. Qed.

Lemma lstrip_rstrip (s : text) : lstrip (rstrip s) = rstrip (lstrip s).
Proof.
  induction s as [|c s IH]; [reflexivity|].
  rewrite rstrip_cons. simpl.
  destruct (isspace c) eqn:Hc.
  - rewrite <- IH. destruct (rstrip s) as [|x l]; [reflexivity|].
    simpl. now rewrite Hc.
  - rewrite rstrip_cons, Hc.
    destruct (rstrip s) as [|x l]; simpl; now rewrite Hc.
Qed.

Lemma strip_length (s : text) : (length (strip s) <= length s)%nat.
Proof.
  unfold strip. etransitivity; [apply rstrip_length | apply lstrip_length].
Qed.

Lemma strip_rstrip (s : text) : strip (rstrip s) = strip s.
Proof. unfold strip. now rewrite lstrip_rstrip, rstrip_idempotent. Qed.

(** On a line that does not begin with whitespace, the code follows the
    rule of the specification. *)
Lemma format_line_agrees_without_leading_space (line : text) :
  lstrip line = line -> format_line line = normalize_line_spec line.
Proof.
  intros Hleft. unfold format_line, normalize_line_spec. cbn zeta.
  destruct (startswith (strip line) (str "-")); [|reflexivity].
  do 2 f_equal.
  change (Some 1) with (Some (Z.of_nat 1)). rewrite slice_from.
  destruct line as [|c rest]; [reflexivity|].
  assert (Hc : isspace c = false).
  { destruct (isspace c) eqn:Hc; [|reflexivity].
    simpl in Hleft. rewrite Hc in Hleft.
    pose proof (lstrip_length rest) as Hlen. rewrite Hleft in Hlen.
    simpl in Hlen. lia. }
  assert (Hstrip : strip (c :: rest) = c :: rstrip rest).
  { unfold strip. rewrite Hleft, rstrip_cons, Hc.
    now destruct (rstrip rest). }
  rewrite Hstrip. cbn [drop]. rewrite !drop_0. now rewrite strip_rstrip.
Qed.

(** On a line that begins with whitespace and whose trimmed content
    starts with a dash, the code keeps the dash after the bullet, which
    the rule of the specification never does. *)
Lemma format_line_keeps_dash_after_leading_space (c : char) (rest : text) :
  isspace c = true ->
  startswith (strip (c :: rest)) (str "-") = true ->
  format_line (c :: rest) = bullet :: space :: strip (c :: rest)
  /\ format_line (c :: rest) <> normalize_line_spec (c :: rest).
Proof.
  intros Hc Hdash.
  assert (Hcode : format_line (c :: rest) = bullet :: space :: strip (c :: rest)).
  { unfold format_line. rewrite Hdash.
    change (Some 1) with (Some (Z.of_nat 1)). rewrite slice_from.
    unfold strip. simpl. now rewrite Hc. }
  split; [exact Hcode|].
  rewrite Hcode. unfold normalize_line_spec. cbn zeta. rewrite Hdash.
  intros Heq. injection Heq as Heq.
  pose proof (strip_length (drop 1 (strip (c :: rest)))) as Hlen.
  rewrite <- Heq in Hlen.
  destruct (strip (c :: rest)) as [|d t]; [discriminate Hdash|].
  simpl in Hlen. rewrite drop_0 in Hlen. lia.
Qed.

(** C5 (the code departs from the specification): on the line [  - a], whose
    trimmed content starts with [-], the code removes the first character
    of the untrimmed line, a space, so the dash stays: the output is
    [* - a] (with the bullet glyph for [*]) where the rule of the
    specification gives [* a]. *)
Theorem format_list_keeps_dash_after_leading_space :
  format_list_as_markdown (str "  - a") = bullet :: str " - a" ++ [nl]
  /\ normalize_lists_spec (str "  - a") = bullet :: str " a" ++ [nl]
  /\ format_list_as_markdown (str "  - a") <> normalize_lists_spec (str "  - a").
Proof. split; [reflexivity|]. split; [reflexivity|]. discriminate. Qed.

Lemma format_list_as_markdown_join (t : text) :
  format_list_as_markdown t =
    join [nl] (List.map format_line (split t nl)) ++ [nl].
Proof.
  rewrite format_list_as_markdown_lines.
  rewrite <- concat_lines_join.
  - now rewrite List.map_map.
  - intros Hmap. apply (split_nonempty t nl).
    now destruct (split t nl).
Qed.

(** C6, as the code has it: the formatted lines are joined with newlines
    and one more newline follows the last line.  A text that already ends
    with a newline has an empty last line, so its output ends with two
    newlines. *)
Theorem format_list_joins_lines_with_trailing_newline (t : text) :
  format_list_as_markdown t =
    join [nl] (List.map format_line (split t nl)) ++ [nl]
  /\ format_list_as_markdown (str "- a" ++ [nl] ++ str "- b" ++ [nl]) =
       bullet :: str " a" ++ [nl] ++ bullet :: str " b" ++ [nl; nl]
  /\ format_list_as_markdown (str "1. a" ++ [nl]) = str "1. a" ++ [nl; nl]
  /\ format_list_as_markdown (str "- a" ++ [nl] ++ str "- b") =
       bullet :: str " a" ++ [nl] ++ bullet :: str " b" ++ [nl]
  /\ format_list_as_markdown (str "1. a") = str "1. a" ++ [nl].
Proof.
  split; [apply format_list_as_markdown_join|].
  split; [reflexivity|]. split; [reflexivity|]. split; reflexivity.
Qed.

(** C6, as the specification states it, fails on its own examples. *)
Lemma format_list_examples_differ :
  format_list_as_markdown (str "- a" ++ [nl] ++ str "- b" ++ [nl]) <>
    bullet :: str " a" ++ [nl] ++ bullet :: str " b" ++ [nl]
  /\ format_list_as_markdown (str "1. a" ++ [nl]) <> str "1. a" ++ [nl].
Proof. split; discriminate. Qed.

(** ** Chunking *)

Lemma slice_window (s : text) (i size : nat) :
  slice s (Some (Z.of_nat i)) (Some (Z.of_nat i + Z.of_nat size)) =
  take size (drop i s).
Proof.
  unfold slice, slice_index, len.
  destruct (Z.ltb_spec (Z.of_nat i) 0) as [Hneg|_]; [lia|].
  destruct (Z.ltb_spec (Z.of_nat i + Z.of_nat size) 0) as [Hneg|_]; [lia|].
  destruct (Nat.le_gt_cases (length s) i) as [Hout|Hin].
  - rewrite (drop_ge s i) by exact Hout.
    rewrite !Z.min_r by lia. rewrite Z.sub_diag.
    now rewrite take_0, take_nil.
  - rewrite (Z.min_l (Z.of_nat i)) by lia. rewrite Nat2Z.id.
    destruct (Z.min_spec (Z.of_nat i + Z.of_nat size) (Z.of_nat (length s)))
      as [[Hlt ->]|[Hge ->]].
    + f_equal. lia.
    + rewrite !take_ge; [reflexivity| |]; rewrite length_drop; lia.
Qed.

Lemma concat_windows (s : text) (size n : nat) :
  concat (List.map (fun k => take size (drop (k * size) s)) (seq 0 n)) =
  take (n * size) s.
Proof.
  induction n as [|n IH]; [reflexivity|].
  rewrite seq_S, List.map_app, concat_app, IH. simpl.
  rewrite app_nil_r, take_take_drop. f_equal. lia.
Qed.

(** The offsets of [range(0, n, size)] for a positive step. *)
Lemma range_offsets (n size : nat) :
  (0 < size)%nat ->
  exists count : nat,
    range 0 (Z.of_nat n) (Z.of_nat size) =
      Some (List.map (fun k => Z.of_nat (k * size)) (seq 0 count))
    /\ (n <= count * size)%nat
    /\ (n = 0%nat -> count = 0%nat).
Proof.
  intros Hsize. unfold range, range_len.
  destruct (Z.eqb_spec (Z.of_nat size) 0) as [Hz|_]; [lia|].
  destruct (Z.ltb_spec 0 (Z.of_nat size)) as [_|Hle]; [|lia].
  destruct (Z.ltb_spec 0 (Z.of_nat n)) as [Hpos|Hzero].
  - exists (Z.to_nat ((Z.of_nat n - 0 - 1) / Z.of_nat size + 1)).
    split; [|split; [|lia]].
    + f_equal. apply map_ext. intros k. lia.
    + pose proof (Z.div_mod (Z.of_nat n - 0 - 1) (Z.of_nat size) ltac:(lia)) as Hdm.
      pose proof (Z.mod_pos_bound (Z.of_nat n - 0 - 1) (Z.of_nat size) ltac:(lia)) as Hmod.
      pose proof (Z.div_pos (Z.of_nat n - 0 - 1) (Z.of_nat size) ltac:(lia) ltac:(lia)) as Hq.
      nia.
  - exists 0%nat. split; [|lia].
    f_equal.
Qed.

Lemma chunks_windows (content : text) (size : nat) :
  (0 < size)%nat ->
  exists count : nat,
    chunks content (Z.of_nat size) =
      List.map (fun k => take size (drop (k * size) content)) (seq 0 count)
    /\ (length content <= count * size)%nat
    /\ (content = [] -> count = 0%nat).
Proof.
  intros Hsize. unfold chunks, len.
  destruct (range_offsets (length content) size Hsize) as (count & -> & Hcover & Hzero).
  exists count. split; [|split; [exact Hcover|]].
  - rewrite List.map_map. apply map_ext. intros k. apply slice_window.
  - intros ->. now apply Hzero.
Qed.

Lemma chunks_concat (content : text) (max_chunk_size : Z) :
  0 < max_chunk_size -> concat (chunks content max_chunk_size) = content.
Proof.
  intros Hpos.
  destruct (chunks_windows content (Z.to_nat max_chunk_size) ltac:(lia))
    as (count & Heq & Hcover & _).
  rewrite Z2Nat.id in Heq by lia.
  rewrite Heq, concat_windows. now apply take_ge.
Qed.

Lemma chunks_bounded (content : text) (max_chunk_size : Z) :
  0 < max_chunk_size ->
  Forall (fun c => len c <= max_chunk_size) (chunks content max_chunk_size).
Proof.
  intros Hpos.
  destruct (chunks_windows content (Z.to_nat max_chunk_size) ltac:(lia))
    as (count & Heq & _ & _).
  rewrite Z2Nat.id in Heq by lia. rewrite Heq.
  apply List.Forall_forall. intros c Hin.
  apply in_map_iff in Hin as (k & <- & _).
  unfold len. rewrite length_take. lia.
Qed.

Lemma chunks_substrings (content : text) (max_chunk_size : Z) :
  0 < max_chunk_size ->
  Forall (fun c => substring c content) (chunks content max_chunk_size).
Proof.
  intros Hpos.
  destruct (chunks_windows content (Z.to_nat max_chunk_size) ltac:(lia))
    as (count & Heq & _ & _).
  rewrite Z2Nat.id in Heq by lia. rewrite Heq.
  apply List.Forall_forall. intros c Hin.
  apply in_map_iff in Hin as (k & <- & _).
  set (size := Z.to_nat max_chunk_size).
  exists (take (k * size) content), (drop size (drop (k * size) content)).
  now rewrite take_drop, take_drop.
Qed.

Lemma chunks_nonempty_pieces (content : text) (max_chunk_size : Z) :
  0 < max_chunk_size ->
  content <> [] -> chunks content max_chunk_size <> [].
Proof.
  intros Hpos Hne Hnil.
  apply Hne. rewrite <- (chunks_concat content max_chunk_size Hpos).
  now rewrite Hnil.
Qed.

Lemma chunks_empty (max_chunk_size : Z) :
  0 < max_chunk_size -> chunks [] max_chunk_size = [].
Proof.
  intros Hpos.
  destruct (chunks_windows [] (Z.to_nat max_chunk_size) ltac:(lia))
    as (count & Heq & _ & Hzero).
  rewrite Z2Nat.id in Heq by lia. rewrite Heq, Hzero; reflexivity.
Qed.

(** ** Runs of the monad *)

Section Runs.

Variable env : Env.

Lemma extend_extend (w : World) (a b : list Event) :
  extend (extend w a) b = extend w (a ++ b).
Proof. unfold extend; simpl. now rewrite <- app_assoc. Qed.

Lemma extend_nil (w : World) : extend w [] = w.
Proof. destruct w; unfold extend; simpl. now rewrite app_nil_r. Qed.

Lemma trace_extend_length (w : World) (evs : list Event) :
  length (trace (extend w evs)) = (length (trace w) + length evs)%nat.
Proof. unfold extend; simpl. apply length_app. Qed.

Lemma perform_ok (o : Op) (w : World) :
  op_fails env (length (trace w)) = false ->
  perform env o w = (Ok tt, extend w [done_ok o]).
Proof. intros H. unfold perform. now rewrite H. Qed.

Lemma perform_raises (o : Op) (w : World) :
  op_fails env (length (trace w)) = true ->
  perform env o w = (Raise (CollaboratorError o), extend w [failed o]).
Proof. intros H. unfold perform. now rewrite H. Qed.

Lemma send_text_ok (c : text) (w : World) :
  op_fails env (length (trace w)) = false ->
  send_text env c w = (Ok tt, extend w [delivered c]).
Proof.
  intros H. unfold send_text, reply_text, bind. now rewrite perform_ok.
Qed.

Lemma send_text_raises (c : text) (w : World) :
  op_fails env (length (trace w)) = true ->
  send_text env c w =
    (Raise (CollaboratorError (OpReplyText c)), extend w [failed (OpReplyText c)]).
Proof.
  intros H. unfold send_text, reply_text, bind. now rewrite perform_raises.
Qed.

Lemma for_each_map {A B} (f : A -> B) (body : B -> M unit) (l : list A) (w : World) :
  for_each (List.map f l) body w = for_each l (fun a => body (f a)) w.
Proof.
  revert w. induction l as [|a l IH]; intros w; [reflexivity|].
  cbn [for_each List.map]. unfold bind.
  destruct (body (f a) w) as [[[]|e] w1]; [apply IH | reflexivity].
Qed.

Lemma send_message_in_chunks_loop (content : text) (max_chunk_size : Z) (w : World) :
  max_chunk_size <> 0 ->
  send_message_in_chunks env content max_chunk_size w =
    for_each (chunks content max_chunk_size) (send_text env) w.
Proof.
  intros Hstep. unfold send_message_in_chunks, chunks, range.
  destruct (Z.eqb_spec max_chunk_size 0) as [|_]; [contradiction|].
  now rewrite !for_each_map.
Qed.

(** The loop delivers every text when no delivery raises. *)
Lemma for_each_send_ok (cs : list text) (w : World) :
  (forall j : nat, (j < length cs)%nat ->
     op_fails env (length (trace w) + j) = false) ->
  for_each cs (send_text env) w = (Ok tt, extend w (List.map delivered cs)).
Proof.
  revert w. induction cs as [|c cs IH]; intros w Hok.
  - simpl. now rewrite extend_nil.
  - simpl. unfold bind. rewrite send_text_ok.
    + rewrite IH.
      * now rewrite extend_extend.
      * intros j Hj. rewrite trace_extend_length. simpl.
        replace (length (trace w) + 1 + j)%nat with (length (trace w) + S j)%nat by lia.
        apply Hok. simpl. lia.
    + specialize (Hok 0%nat). rewrite Nat.add_0_r in Hok. apply Hok. simpl. lia.
Qed.

(** The loop stops at the first delivery that raises. *)
Lemma for_each_send_raises (cs : list text) (w w' : World) (e : Exn) :
  for_each cs (send_text env) w = (Raise e, w') ->
  exists (j : nat) (c : text),
    cs !! j = Some c
    /\ e = CollaboratorError (OpReplyText c)
    /\ op_fails env (length (trace w) + j) = true
    /\ w' = extend w (List.map delivered (take j cs) ++ [failed (OpReplyText c)]).
Proof.
  revert w. induction cs as [|c cs IH]; intros w Hrun; [discriminate|].
  simpl in Hrun. unfold bind in Hrun.
  destruct (op_fails env (length (trace w))) eqn:Hop.
  - rewrite send_text_raises in Hrun by exact Hop.
    injection Hrun as <- <-.
    exists 0%nat, c. rewrite Nat.add_0_r. now repeat split.
  - rewrite send_text_ok in Hrun by exact Hop.
    apply IH in Hrun as (j & c' & Hlook & -> & Hfail & ->).
    exists (S j), c'. repeat split; [exact Hlook| |].
    + rewrite trace_extend_length in Hfail. simpl in Hfail.
      now replace (length (trace w) + S j)%nat with (length (trace w) + 1 + j)%nat by lia.
    + now rewrite extend_extend.
Qed.

End Runs.

(** C1: for a positive limit, the chunks of [send_message_in_chunks]
    concatenate to the content, each is a piece of the content of length
    at most the limit, the deliveries are exactly these chunks in order,
    and an empty content has no chunk and causes no delivery. *)
Theorem send_message_in_chunks_splits_content
    (content : text) (max_chunk_size : Z) (Hpos : 0 < max_chunk_size) :
  concat (chunks content max_chunk_size) = content
  /\ Forall (fun c => len c <= max_chunk_size) (chunks content max_chunk_size)
  /\ Forall (fun c => substring c content) (chunks content max_chunk_size)
  /\ chunks [] max_chunk_size = []
  /\ (forall (env : Env) (w : World),
        send_message_in_chunks env content max_chunk_size w =
          for_each (chunks content max_chunk_size) (send_text env) w)
  /\ (forall (env : Env) (w : World),
        (forall n : nat, op_fails env n = false) ->
        send_message_in_chunks env content max_chunk_size w =
          (Ok tt, extend w (List.map delivered (chunks content max_chunk_size))))
  /\ (forall (env : Env) (w : World),
        send_message_in_chunks env [] max_chunk_size w = (Ok tt, w)).
Proof.
  split; [now apply chunks_concat|].
  split; [now apply chunks_bounded|].
  split; [now apply chunks_substrings|].
  split; [now apply chunks_empty|].
  split; [|split]; intros env w.
  - apply send_message_in_chunks_loop. lia.
  - intros Hok. rewrite send_message_in_chunks_loop by lia.
    apply for_each_send_ok. intros j _. apply Hok.
  - rewrite send_message_in_chunks_loop by lia.
    now rewrite chunks_empty.
Qed.

Lemma send_message_in_chunks_splits_content_witness :
  0 < 3
  /\ chunks (str "abcdefg") 3 = [str "abc"; str "def"; str "g"]
  /\ concat (chunks (str "abcdefg") 3) = str "abcdefg".
Proof.
  split; [lia|]. split; [reflexivity|].
  apply (send_message_in_chunks_splits_content (str "abcdefg") 3). lia.
Defined.

(** ** The context store *)

Section Store.

Variable env : Env.

(** Every run of [get_context]: the connection is opened outside the
    [try], so its failure leaves the function; a failure of the query
    or of the decoding is replaced by the empty history; the
    connection is closed on every path, and a failure of the closing
    leaves the function as well. *)
Lemma get_context_run (chat_id : chat_id_t) (w : World) :
  get_context env chat_id w =
    let n := length (trace w) in
    if op_fails env n
    then (Raise (CollaboratorError OpConnect), extend w [failed OpConnect])
    else
      let fetched := {| ev_op := OpFetchrow chat_id;
                        ev_ok := negb (op_fails env (n + 1)) |} in
      let h := if op_fails env (n + 1) then []
               else stored_history (db w) chat_id in
      if op_fails env (n + 2)
      then (Raise (CollaboratorError OpClose),
            extend w [done_ok OpConnect; fetched; failed OpClose])
      else (Ok h, extend w [done_ok OpConnect; fetched; done_ok OpClose]).
Proof.
  unfold get_context, get_db_connection, asyncpg_connect, conn_fetchrow,
    conn_close, try_finally, try_except, bind, perform, ret, raise,
    stored_history, extend, record.
  cbn zeta.
  destruct (op_fails env (length (trace w))); [reflexivity|].
  cbn [trace db].
  rewrite !length_app. cbn [length].
  replace (length (trace w) + 1 + 1)%nat with (length (trace w) + 2)%nat by lia.
  destruct (op_fails env (length (trace w) + 1)); cbn [trace db negb].
  - rewrite !length_app. cbn [length].
    replace (length (trace w) + 1 + 1)%nat with (length (trace w) + 2)%nat by lia.
    destruct (op_fails env (length (trace w) + 2));
      now rewrite <- !app_assoc.
  - destruct (db w !! chat_id) as [[|h|]|]; cbn [truthy json_loads ret raise trace db];
      rewrite !length_app; cbn [length];
      replace (length (trace w) + 1 + 1)%nat with (length (trace w) + 2)%nat by lia;
      destruct (op_fails env (length (trace w) + 2));
      now rewrite <- !app_assoc.
Qed.

(** Every run of [save_context]. *)
Lemma save_context_run (chat_id : chat_id_t) (context : History) (w : World) :
  save_context env chat_id context w =
    let n := length (trace w) in
    if op_fails env n
    then (Raise (CollaboratorError OpConnect), extend w [failed OpConnect])
    else
      let upsert := OpUpsert chat_id (BlobJson context) in
      let stored := {| ev_op := upsert; ev_ok := negb (op_fails env (n + 1)) |} in
      let d := if op_fails env (n + 1) then db w
               else <[chat_id := BlobJson context]> (db w) in
      if op_fails env (n + 2)
      then (Raise (CollaboratorError OpClose),
            {| db := d; trace := trace w ++ [done_ok OpConnect; stored; failed OpClose] |})
      else (Ok tt,
            {| db := d; trace := trace w ++ [done_ok OpConnect; stored; done_ok OpClose] |}).
Proof.
  unfold save_context, get_db_connection, asyncpg_connect, conn_execute_upsert,
    conn_close, try_finally, try_except, bind, perform, ret, raise,
    json_dumps, extend, record.
  cbn zeta.
  destruct (op_fails env (length (trace w))); [reflexivity|].
  cbn [trace db].
  rewrite !length_app. cbn [length].
  destruct (op_fails env (length (trace w) + 1)); cbn [trace db negb];
    rewrite !length_app; cbn [length];
    replace (length (trace w) + 1 + 1)%nat with (length (trace w) + 2)%nat by lia;
    destruct (op_fails env (length (trace w) + 2));
    now rewrite <- !app_assoc.
Qed.

End Store.

(** ** The message handler *)

Section Handler.

Variable env : Env.

Lemma messages_projection (context_data : History) :
  List.map (fun msg => {| role := role msg; content := content msg |})
    context_data = context_data.
Proof.
  induction context_data as [|[r c] h IH]; [reflexivity|].
  simpl. now rewrite IH.
Qed.

Lemma handle_message_blocks (chat_id : chat_id_t) (user_message : text) (w : World) :
  handle_message env chat_id user_message w =
    match get_context env chat_id w with
    | (Ok context_data, w1) =>
        try_except
          (exchange env chat_id (context_data ++ [user_turn user_message])
             (clean_markdown user_message))
          (report_failure env) w1
    | (Raise e, w1) => (Raise e, w1)
    end.
Proof.
  unfold handle_message. unfold bind at 1.
  destruct (get_context env chat_id w) as [[h|e] w1]; [|reflexivity].
  now destruct h.
Qed.

Lemma reply_text_run (t : text) (w : World) :
  reply_text env t w =
    if op_fails env (length (trace w))
    then (Raise (CollaboratorError (OpReplyText t)), extend w [failed (OpReplyText t)])
    else (Ok (length (trace w)), extend w [delivered t]).
Proof.
  unfold reply_text, bind, perform, ret.
  now destruct (op_fails env (length (trace w))).
Qed.

Lemma report_failure_run (e : Exn) (w : World) :
  report_failure env e w =
    if op_fails env (length (trace w))
    then (Raise (CollaboratorError (OpReplyText failure_text)),
          extend w [failed (OpReplyText failure_text)])
    else (Ok tt, extend w [delivered failure_text]).
Proof.
  unfold report_failure, bind. rewrite reply_text_run.
  now destruct (op_fails env (length (trace w))).
Qed.

Lemma message_delete_run (m : nat) (w : World) :
  message_delete env m w =
    if op_fails env (length (trace w))
    then (Raise (CollaboratorError (OpDeleteMessage m)),
          extend w [failed (OpDeleteMessage m)])
    else (Ok tt, extend w [done_ok (OpDeleteMessage m)]).
Proof. reflexivity. Qed.

Lemma application_call_run (prompt : text) (messages : list Turn) (w : World) :
  application_call env prompt messages w =
    if op_fails env (length (trace w))
    then (Raise (CollaboratorError (OpCall prompt messages)),
          extend w [failed (OpCall prompt messages)])
    else (Ok (llm_response env (length (trace w)) prompt messages),
          extend w [done_ok (OpCall prompt messages)]).
Proof.
  unfold application_call, bind, perform, ret.
  now destruct (op_fails env (length (trace w))).
Qed.

(** The body of the outer [try], up to the reply of the LLM. *)
Lemma exchange_run (chat_id : chat_id_t) (context_data : History)
    (prompt : text) (w : World) :
  exchange env chat_id context_data prompt w =
    let n := length (trace w) in
    let calling := OpCall prompt context_data in
    if op_fails env n
    then (Raise (CollaboratorError (OpReplyText typing_text)),
          extend w [failed (OpReplyText typing_text)])
    else if op_fails env (n + 1)
    then (Raise (CollaboratorError calling),
          extend w [delivered typing_text; failed calling])
    else
      let w2 := extend w [delivered typing_text; done_ok calling] in
      match llm_response env (n + 1) prompt context_data with
      | Output (Some output_content) =>
          bind (respond env chat_id context_data output_content)
               (fun _ => message_delete env n) w2
      | Output None => (Raise LookupError, w2)
      | NoResponse | WithoutOutput =>
          bind (report_no_response env) (fun _ => message_delete env n) w2
      end.
Proof.
  unfold exchange. unfold bind at 1 2 3.
  rewrite reply_text_run.
  destruct (op_fails env (length (trace w))) eqn:Htyping; [reflexivity|].
  rewrite messages_projection, application_call_run.
  rewrite trace_extend_length. cbn [length].
  destruct (op_fails env (length (trace w) + 1)) eqn:Hcall.
  - now rewrite extend_extend.
  - rewrite extend_extend. cbn [app].
    destruct (llm_response env (length (trace w) + 1) prompt context_data)
      as [| |[output_content|]]; reflexivity.
Qed.

Lemma formatted_reply_nonempty (output_content : text) :
  clean_markdown (format_list_as_markdown output_content) <> [].
Proof.
  rewrite format_list_as_markdown_join, clean_markdown_app. intros Hnil.
  apply app_eq_nil in Hnil as [_ Hnl]. discriminate.
Qed.

(** The branch of a usable reply when every formatted chunk is
    delivered: the history is saved next. *)
Lemma respond_delivered (chat_id : chat_id_t) (context_data : History)
    (output_content : text) (w : World) :
  let clean_output := clean_markdown (format_list_as_markdown output_content) in
  (forall j : nat, (j < length (chunks clean_output 4096))%nat ->
     op_fails env (length (trace w) + j) = false) ->
  respond env chat_id context_data output_content w =
    save_context env chat_id (context_data ++ [assistant_turn output_content])
      (extend w (List.map delivered (chunks clean_output 4096))).
Proof.
  intros clean_output Hok. unfold respond, bind, try_except.
  rewrite send_message_in_chunks_loop by lia.
  now rewrite for_each_send_ok by exact Hok.
Qed.

(** The branch of a usable reply when the delivery of the formatted
    text raises: the raw text is delivered in chunks from the world
    the failure left, and the history is saved after it. *)
Lemma respond_fallback (chat_id : chat_id_t) (context_data : History)
    (output_content : text) (w w2 : World) (e : Exn) :
  send_message_in_chunks env
    (clean_markdown (format_list_as_markdown output_content)) 4096 w = (Raise e, w2) ->
  respond env chat_id context_data output_content w =
    bind (send_message_in_chunks env output_content 4096)
         (fun _ => save_context env chat_id
                     (context_data ++ [assistant_turn output_content])) w2.
Proof.
  intros Hraise. unfold respond. unfold bind at 1. unfold try_except.
  now rewrite Hraise.
Qed.

End Handler.

(** C2: when no operation raises and the LLM answers the request with a
    usable reply, the LLM receives exactly the stored history followed by
    the escape-stripped user turn, the chunks of the formatted reply are
    delivered in order, and the row of the chat is replaced by that list
    followed by the formatted and cleaned assistant turn. *)
Theorem handle_message_success
    (env : Env) (chat_id : chat_id_t) (user_message reply : text) (w : World)
    (Hok : forall n : nat, op_fails env n = false)
    (Hreply : llm_response env (length (trace w) + 4)
                (clean_markdown user_message)
                (stored_history (db w) chat_id ++ [user_turn user_message])
              = Output (Some reply)) :
  let sent := stored_history (db w) chat_id ++ [user_turn user_message] in
  let formatted := clean_markdown (format_list_as_markdown reply) in
  let saved := sent ++ [{| role := assistant; content := formatted |}] in
  handle_message env chat_id user_message w =
    (Ok tt,
     {| db := <[chat_id := BlobJson saved]> (db w);
        trace := trace w
          ++ [done_ok OpConnect; done_ok (OpFetchrow chat_id); done_ok OpClose;
              delivered typing_text;
              done_ok (OpCall (clean_markdown user_message) sent)]
          ++ List.map delivered (chunks formatted 4096)
          ++ [done_ok OpConnect; done_ok (OpUpsert chat_id (BlobJson saved));
              done_ok OpClose;
              done_ok (OpDeleteMessage (length (trace w) + 3))] |})
  /\ concat (chunks formatted 4096) = formatted
  /\ chunks formatted 4096 <> [].
Proof.
  intros sent formatted saved.
  split; [|split; [apply chunks_concat; lia
                  |apply chunks_nonempty_pieces; [lia|apply formatted_reply_nonempty]]].
  rewrite handle_message_blocks, get_context_run. cbn zeta.
  rewrite !Hok. unfold try_except.
  rewrite exchange_run. cbn zeta.
  rewrite !Hok, !trace_extend_length. cbn [length].
  replace (length (trace w) + 3 + 1)%nat with (length (trace w) + 4)%nat by lia.
  rewrite Hreply.
  unfold bind.
  rewrite respond_delivered by (intros; apply Hok).
  rewrite save_context_run. cbn zeta. rewrite !Hok.
  rewrite message_delete_run, Hok.
  subst saved formatted sent.
  unfold assistant_turn, extend. cbn [db trace negb].
  now rewrite <- !app_assoc.
Qed.

Lemma handle_message_success_witness :
  handle_message (env_reliable (Output (Some (str "Hi there")))) 7 (str "Hello") world0 =
    (Ok tt,
     {| db := <[7 := BlobJson [ {| role := user; content := str "Hello" |};
                                {| role := assistant; content := str "Hi there" ++ [nl] |} ]]> ∅;
        trace :=
          [done_ok OpConnect; done_ok (OpFetchrow 7); done_ok OpClose;
           delivered typing_text;
           done_ok (OpCall (str "Hello") [ {| role := user; content := str "Hello" |} ]);
           delivered (str "Hi there" ++ [nl]);
           done_ok OpConnect;
           done_ok (OpUpsert 7
             (BlobJson [ {| role := user; content := str "Hello" |};
                         {| role := assistant; content := str "Hi there" ++ [nl] |} ]));
           done_ok OpClose;
           done_ok (OpDeleteMessage 3)] |}).
Proof.
  exact (proj1 (handle_message_success
                  (env_reliable (Output (Some (str "Hi there")))) 7
                  (str "Hello") (str "Hi there") world0
                  (fun n => eq_refl) eq_refl)).
Defined.

(** C3, as the code has it: a failure of the query, a missing or falsy
    row and a text that cannot be decoded all give the empty history,
    when the connection was opened and is closed normally; a failure to
    open the connection is raised again by [get_db_connection], leaves
    [get_context] as an exception and, [get_context] being called outside
    the [try] of [handle_message], leaves the handler as well. *)
Theorem get_context_swallows_query_and_decoding_failures
    (env : Env) (chat_id : chat_id_t) (w : World) :
  let n := length (trace w) in
  (op_fails env n = true ->
     get_context env chat_id w =
       (Raise (CollaboratorError OpConnect), extend w [failed OpConnect])
     /\ forall user_message : text,
          handle_message env chat_id user_message w =
            (Raise (CollaboratorError OpConnect), extend w [failed OpConnect]))
  /\ (op_fails env n = false -> op_fails env (n + 2) = false ->
      exists (h : History) (w' : World),
        get_context env chat_id w = (Ok h, w')
        /\ db w' = db w
        /\ (op_fails env (n + 1) = true -> h = [])
        /\ (db w !! chat_id = Some BlobCorrupt -> h = [])
        /\ (db w !! chat_id = Some BlobNull -> h = [])
        /\ (db w !! chat_id = None -> h = [])
        /\ (forall stored : History,
              op_fails env (n + 1) = false ->
              db w !! chat_id = Some (BlobJson stored) -> h = stored)).
Proof.
  intros n. split.
  - intros Hconnect. split.
    + rewrite get_context_run. cbn zeta. fold n. now rewrite Hconnect.
    + intros user_message.
      rewrite handle_message_blocks, get_context_run. cbn zeta. fold n.
      now rewrite Hconnect.
  - intros Hconnect Hclose.
    rewrite get_context_run. cbn zeta. fold n. rewrite Hconnect, Hclose.
    eexists _, _. split; [reflexivity|]. split; [reflexivity|].
    unfold stored_history.
    destruct (op_fails env (n + 1)).
    + repeat split; try reflexivity. intros stored Hquery. discriminate.
    + repeat split; try discriminate.
      * now intros ->.
      * now intros ->.
      * now intros ->.
      * now intros stored _ ->.
Qed.

Lemma get_context_swallows_query_and_decoding_failures_witness :
  get_context (env_failing_at 0 NoResponse) 7 world0 =
    (Raise (CollaboratorError OpConnect), extend world0 [failed OpConnect])
  /\ exists (h : History) (w' : World),
       get_context (env_failing_at 1 NoResponse) 7 world0 = (Ok h, w') /\ h = [].
Proof.
  split.
  - exact (proj1 (proj1 (get_context_swallows_query_and_decoding_failures
                           (env_failing_at 0 NoResponse) 7 world0) eq_refl)).
  - destruct (proj2 (get_context_swallows_query_and_decoding_failures
                       (env_failing_at 1 NoResponse) 7 world0) eq_refl eq_refl)
      as (h & w' & Hrun & _ & Hquery & _).
    exists h, w'. split; [exact Hrun | exact (Hquery eq_refl)].
Defined.

(** C3, as the specification states it, fails when the connection cannot
    be opened: [get_context] raises instead of returning the empty
    history, and so does the handler. *)
Lemma get_context_connection_failure_is_raised :
  get_context (env_failing_at 0 NoResponse) 7 world0 =
    (Raise (CollaboratorError OpConnect), {| db := ∅; trace := [failed OpConnect] |})
  /\ (forall w' : World,
        get_context (env_failing_at 0 NoResponse) 7 world0 <> (Ok [], w'))
  /\ handle_message (env_failing_at 0 NoResponse) 7 (str "Hello") world0 =
       (Raise (CollaboratorError OpConnect), {| db := ∅; trace := [failed OpConnect] |}).
Proof.
  split; [reflexivity|]. split; [|reflexivity].
  intros w' Hrun. discriminate Hrun.
Qed.

(** Positions of the operations of a run, counted from its start. *)
Ltac norm_run H :=
  rewrite ?extend_extend, ?trace_extend_length in H; cbn [length app] in H.

(** Case analysis on the operation a run is about to attempt. *)
Ltac case_op :=
  match goal with
  | |- context [if op_fails ?env ?k then _ else _] => destruct (op_fails env k)
  end.

(** Closing a case of a run whose outcome and world are known. *)
Ltac close_run Hrun :=
  injection Hrun as <- <-;
  split; [reflexivity|];
  eexists; split; [reflexivity|];
  split; [repeat constructor|];
  cbn [List.map ev_op]; intros p ms Hin; cbn [In] in Hin;
  try (exfalso; intuition discriminate);
  cbn [In]; tauto.

Section MalformedReply.

Variable env : Env.
Hypothesis Hresp :
  forall (n : nat) (p : text) (ms : list Turn),
    malformed (llm_response env n p ms) = true.

Lemma leaves_history_after (w w' : World) (evs : list Event) :
  Forall (fun e => is_upsert (ev_op e) = false /\ is_call (ev_op e) = false) evs ->
  leaves_history (extend w evs) w' -> leaves_history w w'.
Proof.
  intros Hevs (Hdb & evs' & Htrace & Hnone & Hcall).
  split; [exact Hdb|].
  exists (evs ++ evs'). split; [|split].
  - rewrite Htrace. unfold extend; cbn [trace]. now rewrite app_assoc.
  - apply Forall_app. split; [|exact Hnone].
    eapply List.Forall_impl; [|exact Hevs]. now intros e [? _].
  - intros p ms Hin. rewrite List.map_app. apply in_or_app. right.
    apply in_app_or in Hin as [Hin|Hin]; [|now apply (Hcall p ms)].
    rewrite List.Forall_forall in Hevs.
    destruct (Hevs _ Hin) as [_ Hno]. discriminate Hno.
Qed.

Lemma exchange_malformed_reply (chat_id : chat_id_t) (context_data : History)
    (prompt : text) (w w' : World) (r : Outcome unit) :
  try_except (exchange env chat_id context_data prompt) (report_failure env) w = (r, w') ->
  leaves_history w w'.
Proof.
  unfold try_except. rewrite exchange_run. cbn zeta.
  destruct (op_fails env (length (trace w))).
  { rewrite report_failure_run. intros Hrun. norm_run Hrun.
    destruct (op_fails env _); close_run Hrun. }
  destruct (op_fails env (length (trace w) + 1)).
  { rewrite report_failure_run. intros Hrun. norm_run Hrun.
    destruct (op_fails env _); close_run Hrun. }
  pose proof (Hresp (length (trace w) + 1)%nat prompt context_data) as Hbad.
  destruct (llm_response env _ prompt context_data) as [| |t];
    [ | |discriminate Hbad];
    unfold report_no_response, bind; rewrite reply_text_run;
    unfold ret; intros Hrun; norm_run Hrun;
    (destruct (op_fails env (length (trace w) + 2));
     [rewrite report_failure_run in Hrun; norm_run Hrun;
      destruct (op_fails env _); close_run Hrun|]);
    rewrite message_delete_run in Hrun; norm_run Hrun;
    (destruct (op_fails env (length (trace w) + 3));
     [rewrite report_failure_run in Hrun; norm_run Hrun;
      destruct (op_fails env _); close_run Hrun|]);
    close_run Hrun.
Qed.

End MalformedReply.

(** C4: when the LLM gives no usable reply, whatever else fails, the
    table is left as it was and no write to it is even attempted; and
    once the call to the LLM has returned, the no-response message is
    sent to the user. *)
Theorem handle_message_malformed_reply_keeps_history
    (env : Env) (chat_id : chat_id_t) (user_message : text)
    (w w' : World) (r : Outcome unit)
    (Hresp : forall (n : nat) (p : text) (ms : list Turn),
               malformed (llm_response env n p ms) = true)
    (Hrun : handle_message env chat_id user_message w = (r, w')) :
  db w' = db w
  /\ exists evs : list Event,
       trace w' = trace w ++ evs
       /\ Forall (fun e => is_upsert (ev_op e) = false) evs
       /\ (forall (p : text) (ms : list Turn),
             In (done_ok (OpCall p ms)) evs ->
             In (OpReplyText no_response_text) (List.map ev_op evs)).
Proof.
  change (leaves_history w w').
  rewrite handle_message_blocks, get_context_run in Hrun. cbn zeta in Hrun.
  destruct (op_fails env (length (trace w))); [close_run Hrun|].
  destruct (op_fails env (length (trace w) + 2)); [close_run Hrun|].
  apply exchange_malformed_reply in Hrun; [|exact Hresp].
  eapply leaves_history_after; [|exact Hrun].
  repeat constructor.
Qed.

Lemma handle_message_malformed_reply_keeps_history_witness :
  db (snd (handle_message (env_reliable WithoutOutput) 7 (str "Hello") world0)) = db world0
  /\ exists evs : list Event,
       trace (snd (handle_message (env_reliable WithoutOutput) 7 (str "Hello") world0)) =
         trace world0 ++ evs
       /\ Forall (fun e => is_upsert (ev_op e) = false) evs
       /\ (forall (p : text) (ms : list Turn),
             In (done_ok (OpCall p ms)) evs ->
             In (OpReplyText no_response_text) (List.map ev_op evs)).
Proof.
  apply (handle_message_malformed_reply_keeps_history
           (env_reliable WithoutOutput) 7 (str "Hello") world0 _
           (fst (handle_message (env_reliable WithoutOutput) 7 (str "Hello") world0))).
  - intros n p ms. reflexivity.
  - reflexivity.
Defined.

(** ** Delivery failures *)

(** The run up to the reply of the LLM, when nothing raises so far. *)
Lemma handle_message_asked
    (env : Env) (chat_id : chat_id_t) (user_message : text) (w : World) :
  let n := length (trace w) in
  let prompt := clean_markdown user_message in
  let sent := stored_history (db w) chat_id ++ [user_turn user_message] in
  (forall k : nat, (k < 5)%nat -> op_fails env (n + k) = false) ->
  handle_message env chat_id user_message w =
    try_except
      (fun w1 =>
         match llm_response env (n + 4) prompt sent with
         | Output (Some output_content) =>
             bind (respond env chat_id sent output_content)
                  (fun _ => message_delete env (n + 3)) w1
         | Output None => (Raise LookupError, w1)
         | NoResponse | WithoutOutput =>
             bind (report_no_response env)
                  (fun _ => message_delete env (n + 3)) w1
         end)
      (report_failure env)
      (extend w (asked chat_id prompt sent)).
Proof.
  intros n prompt sent Hok.
  pose proof (Hok 0%nat ltac:(lia)) as H0. rewrite Nat.add_0_r in H0.
  pose proof (Hok 1%nat ltac:(lia)) as H1.
  pose proof (Hok 2%nat ltac:(lia)) as H2.
  pose proof (Hok 3%nat ltac:(lia)) as H3.
  pose proof (Hok 4%nat ltac:(lia)) as H4.
  subst n.
  rewrite handle_message_blocks, get_context_run. cbn zeta.
  rewrite H0, H1, H2. unfold try_except.
  rewrite exchange_run. cbn zeta.
  rewrite trace_extend_length. cbn [length].
  replace (length (trace w) + 3 + 1)%nat with (length (trace w) + 4)%nat by lia.
  rewrite H3, H4, extend_extend.
  reflexivity.
Qed.

(** The run from the failure of the formatted delivery on. *)
Lemma handle_message_after_failed_delivery
    (env : Env) (chat_id : chat_id_t) (user_message raw : text)
    (w w2 : World) (e : Exn) :
  let n := length (trace w) in
  let prompt := clean_markdown user_message in
  let sent := stored_history (db w) chat_id ++ [user_turn user_message] in
  let formatted := clean_markdown (format_list_as_markdown raw) in
  (forall k : nat, (k < 5)%nat -> op_fails env (n + k) = false) ->
  llm_response env (n + 4) prompt sent = Output (Some raw) ->
  send_message_in_chunks env formatted 4096
    (extend w (asked chat_id prompt sent)) = (Raise e, w2) ->
  handle_message env chat_id user_message w =
    try_except
      (bind (bind (send_message_in_chunks env raw 4096)
                  (fun _ => save_context env chat_id (sent ++ [assistant_turn raw])))
            (fun _ => message_delete env (n + 3)))
      (report_failure env) w2.
Proof.
  intros n prompt sent formatted Hok Hreply Hraise.
  rewrite handle_message_asked by exact Hok.
  unfold try_except. fold n prompt sent. rewrite Hreply.
  unfold bind at 1.
  now rewrite (respond_fallback env chat_id sent raw _ w2 e Hraise).
Qed.

Lemma try_bind_bind_ok {A B C} (m : M A) (k1 : A -> M B) (k2 : B -> M C)
    (h : Exn -> M C) (w w1 : World) (a : A) :
  m w = (Ok a, w1) ->
  try_except (bind (bind m k1) k2) h w = try_except (bind (k1 a) k2) h w1.
Proof. intros Hm. unfold try_except, bind. now rewrite Hm. Qed.

Lemma try_bind_bind_raise {A B C} (m : M A) (k1 : A -> M B) (k2 : B -> M C)
    (h : Exn -> M C) (w w1 : World) (e : Exn) :
  m w = (Raise e, w1) ->
  try_except (bind (bind m k1) k2) h w = h e w1.
Proof. intros Hm. unfold try_except, bind. now rewrite Hm. Qed.

(** Saving and deleting the indicator only add operations to a run. *)
Lemma save_and_delete_extend
    (env : Env) (chat_id : chat_id_t) (h : History) (m : nat) (w : World) :
  exists (r : Outcome unit) (w' : World) (evs : list Event),
    try_except
      (bind (save_context env chat_id h) (fun _ => message_delete env m))
      (report_failure env) w = (r, w')
    /\ trace w' = trace w ++ evs.
Proof.
  unfold try_except, bind. rewrite save_context_run. cbn zeta.
  repeat first [case_op | rewrite message_delete_run | rewrite report_failure_run];
    eexists _, _, _; (split; [reflexivity|]);
    unfold extend; cbn [trace]; rewrite <- ?app_assoc; reflexivity.
Qed.

(** C8: when the delivery of the formatted text raises, at whatever
    chunk, the handler goes on with the delivery of the raw reply in
    chunks of at most 4096 characters, from the world the failure left,
    whatever happens later; if these deliveries and the following
    operations succeed, the history is saved with the formatted turn and
    the handler ends normally, without the failure message. *)
Theorem handle_message_falls_back_to_raw_reply
    (env : Env) (chat_id : chat_id_t) (user_message raw : text)
    (w w2 : World) (e : Exn) :
  let n := length (trace w) in
  let prompt := clean_markdown user_message in
  let sent := stored_history (db w) chat_id ++ [user_turn user_message] in
  let formatted := clean_markdown (format_list_as_markdown raw) in
  let saved := sent ++ [{| role := assistant; content := formatted |}] in
  (forall k : nat, (k < 5)%nat -> op_fails env (n + k) = false) ->
  llm_response env (n + 4) prompt sent = Output (Some raw) ->
  send_message_in_chunks env formatted 4096
    (extend w (asked chat_id prompt sent)) = (Raise e, w2) ->
  (exists (j : nat) (c : text),
     chunks formatted 4096 !! j = Some c
     /\ trace w2 = trace w ++ asked chat_id prompt sent
          ++ List.map delivered (take j (chunks formatted 4096))
          ++ [failed (OpReplyText c)])
  /\ (exists (r3 r : Outcome unit) (w3 w' : World) (evs : list Event),
        send_message_in_chunks env raw 4096 w2 = (r3, w3)
        /\ handle_message env chat_id user_message w = (r, w')
        /\ trace w' = trace w3 ++ evs)
  /\ ((forall k : nat, (length (trace w2) <= k)%nat -> op_fails env k = false) ->
      handle_message env chat_id user_message w =
        (Ok tt,
         {| db := <[chat_id := BlobJson saved]> (db w);
            trace := trace w2
              ++ List.map delivered (chunks raw 4096)
              ++ saved_as chat_id saved
              ++ [done_ok (OpDeleteMessage (n + 3))] |}))
  /\ concat (chunks raw 4096) = raw
  /\ Forall (fun c => len c <= 4096) (chunks raw 4096).
Proof.
  intros n prompt sent formatted saved Hok Hreply Hraise.
  assert (Hw2 : exists (j : nat) (c : text),
             chunks formatted 4096 !! j = Some c
             /\ w2 = extend w (asked chat_id prompt sent
                      ++ List.map delivered (take j (chunks formatted 4096))
                      ++ [failed (OpReplyText c)])).
  { pose proof Hraise as Hloop.
    rewrite send_message_in_chunks_loop in Hloop by lia.
    apply for_each_send_raises in Hloop as (j & c & Hlook & _ & _ & ->).
    exists j, c. split; [exact Hlook|]. now rewrite extend_extend. }
  pose proof (handle_message_after_failed_delivery env chat_id user_message raw
                w w2 e Hok Hreply Hraise) as Hrun.
  cbv zeta in Hrun. fold n prompt sent in Hrun.
  split; [|split; [|split; [|split; [apply chunks_concat; lia
                                    |apply chunks_bounded; lia]]]].
  - destruct Hw2 as (j & c & Hlook & ->).
    exists j, c. split; [exact Hlook|]. reflexivity.
  - rewrite Hrun.
    destruct (send_message_in_chunks env raw 4096 w2) as [[[]|e3] w3] eqn:Hraw.
    + rewrite (try_bind_bind_ok _ _ _ _ _ _ _ Hraw).
      destruct (save_and_delete_extend env chat_id (sent ++ [assistant_turn raw])
                  (n + 3) w3) as (r & w' & evs & Hrest & Htrace).
      rewrite Hrest.
      exists (Ok tt), r, w3, w', evs. now repeat split.
    + rewrite (try_bind_bind_raise _ _ _ _ _ _ _ Hraw), report_failure_run.
      case_op; eexists (Raise e3), _, w3, _, _;
        (split; [reflexivity|]); (split; [reflexivity|]); reflexivity.
  - intros Hrest. rewrite Hrun.
    unfold try_except, bind.
    rewrite send_message_in_chunks_loop by lia.
    rewrite for_each_send_ok by (intros j _; apply Hrest; lia).
    rewrite save_context_run. cbn zeta.
    rewrite !trace_extend_length.
    rewrite !Hrest by lia.
    rewrite message_delete_run. cbn [trace].
    rewrite Hrest by (rewrite length_app, trace_extend_length; lia).
    destruct Hw2 as (j & c & _ & ->).
    unfold extend, assistant_turn, saved_as. cbn [db trace negb].
    now rewrite <- !app_assoc.
Qed.

Lemma handle_message_falls_back_to_raw_reply_witness :
  handle_message (env_failing_at 5 (Output (Some (str "- a")))) 7 (str "Hello") world0 =
    (Ok tt,
     {| db := <[7 := BlobJson [ {| role := user; content := str "Hello" |};
                                {| role := assistant;
                                   content := bullet :: str " a" ++ [nl] |} ]]> ∅;
        trace :=
          asked 7 (str "Hello") [ {| role := user; content := str "Hello" |} ]
          ++ [failed (OpReplyText (bullet :: str " a" ++ [nl]));
              delivered (str "- a")]
          ++ saved_as 7 [ {| role := user; content := str "Hello" |};
                          {| role := assistant;
                             content := bullet :: str " a" ++ [nl] |} ]
          ++ [done_ok (OpDeleteMessage 3)] |}).
Proof.
  refine (proj1 (proj2 (proj2 (handle_message_falls_back_to_raw_reply
                   (env_failing_at 5 (Output (Some (str "- a")))) 7
                   (str "Hello") (str "- a") world0
                   (extend world0
                      (asked 7 (str "Hello") [ {| role := user; content := str "Hello" |} ]
                       ++ [failed (OpReplyText (bullet :: str " a" ++ [nl]))]))
                   (CollaboratorError (OpReplyText (bullet :: str " a" ++ [nl])))
                   _ _ _))) _).
  - intros k Hk. do 5 (destruct k as [|k]; [reflexivity|]). lia.
  - reflexivity.
  - reflexivity.
  - intros k Hk. cbn in Hk. apply Nat.eqb_neq. lia.
Defined.

(** C9, as the code has it.  The indicator is sent inside the outer
    [try], before the call of the LLM: when sending it raises (the load
    having succeeded), the LLM is not called, no reply is delivered,
    nothing is saved, and the failure message is sent.  The indicator is
    deleted last: when everything before the deletion succeeds, the
    formatted reply has been delivered and the history saved whether the
    deletion raises or not; a deletion that raises only adds the failure
    message. *)
Theorem typing_indicator_sending_matters_deleting_does_not
    (env : Env) (chat_id : chat_id_t) (user_message reply : text) (w : World) :
  let n := length (trace w) in
  let prompt := clean_markdown user_message in
  let sent := stored_history (db w) chat_id ++ [user_turn user_message] in
  let formatted := clean_markdown (format_list_as_markdown reply) in
  let saved := sent ++ [{| role := assistant; content := formatted |}] in
  (forall k : nat, (k < 3)%nat -> op_fails env (n + k) = false) ->
  (op_fails env (n + 3) = true ->
     exists (r : Outcome unit) (told : bool),
       handle_message env chat_id user_message w =
         (r, extend w (loaded chat_id
                       ++ [failed (OpReplyText typing_text);
                           {| ev_op := OpReplyText failure_text; ev_ok := told |}])))
  /\ ((forall k : nat, (k < 8 + length (chunks formatted 4096))%nat ->
         op_fails env (n + k) = false) ->
      llm_response env (n + 4) prompt sent = Output (Some reply) ->
      exists (r : Outcome unit) (ending : list Event),
        handle_message env chat_id user_message w =
          (r,
           {| db := <[chat_id := BlobJson saved]> (db w);
              trace := trace w ++ asked chat_id prompt sent
                ++ List.map delivered (chunks formatted 4096)
                ++ saved_as chat_id saved
                ++ ending |})
        /\ (ending = [done_ok (OpDeleteMessage (n + 3))]
            \/ exists told : bool,
                 ending = [failed (OpDeleteMessage (n + 3));
                           {| ev_op := OpReplyText failure_text; ev_ok := told |}])).
Proof.
  intros n prompt sent formatted saved Hload. split.
  - intros Htyping.
    pose proof (Hload 0%nat ltac:(lia)) as H0. rewrite Nat.add_0_r in H0.
    pose proof (Hload 1%nat ltac:(lia)) as H1.
    pose proof (Hload 2%nat ltac:(lia)) as H2.
    subst n.
    rewrite handle_message_blocks, get_context_run. cbn zeta.
    rewrite H0, H1, H2. unfold try_except.
    rewrite exchange_run. cbn zeta.
    rewrite trace_extend_length. cbn [length].
    rewrite Htyping, report_failure_run, !extend_extend.
    case_op; eexists _, _; reflexivity.
  - intros Hok Hreply.
    rewrite handle_message_asked by (intros k Hk; apply Hok; lia).
    unfold try_except. fold n prompt sent. rewrite Hreply.
    unfold bind.
    rewrite respond_delivered.
    2:{ intros j Hj. rewrite trace_extend_length. fold n formatted. cbn [length asked loaded app].
        rewrite <- Nat.add_assoc. apply Hok. fold formatted in Hj. lia. }
    fold formatted.
    rewrite save_context_run. cbn zeta.
    rewrite !extend_extend, !trace_extend_length, length_app, length_map.
    cbn [length asked loaded app]. fold n.
    rewrite <- !Nat.add_assoc.
    rewrite !Hok by lia.
    rewrite message_delete_run. cbn [trace].
    unfold assistant_turn. fold formatted saved.
    case_op.
    + rewrite report_failure_run.
      case_op; eexists _, _;
        (split; [unfold extend, saved_as; cbn [db trace negb];
                 rewrite <- !app_assoc; reflexivity
                |right; eexists; reflexivity]).
    + eexists _, _.
      split; [unfold extend, saved_as; cbn [db trace negb];
              rewrite <- !app_assoc; reflexivity
             |left; reflexivity].
Qed.

Lemma typing_indicator_sending_matters_deleting_does_not_witness :
  (exists (r : Outcome unit) (told : bool),
     handle_message (env_failing_at 3 (Output (Some (str "Hi there")))) 7
       (str "Hello") world0 =
       (r, extend world0
             (loaded 7 ++ [failed (OpReplyText typing_text);
                           {| ev_op := OpReplyText failure_text; ev_ok := told |}])))
  /\ (exists (r : Outcome unit) (ending : list Event),
        handle_message (env_failing_at 9 (Output (Some (str "Hi there")))) 7
          (str "Hello") world0 =
          (r,
           {| db := <[7 := BlobJson [ {| role := user; content := str "Hello" |};
                                      {| role := assistant;
                                         content := str "Hi there" ++ [nl] |} ]]> ∅;
              trace :=
                asked 7 (str "Hello") [ {| role := user; content := str "Hello" |} ]
                ++ [delivered (str "Hi there" ++ [nl])]
                ++ saved_as 7 [ {| role := user; content := str "Hello" |};
                                {| role := assistant;
                                   content := str "Hi there" ++ [nl] |} ]
                ++ ending |})
        /\ (ending = [done_ok (OpDeleteMessage 3)]
            \/ exists told : bool,
                 ending = [failed (OpDeleteMessage 3);
                           {| ev_op := OpReplyText failure_text; ev_ok := told |}])).
Proof.
  split.
  - refine (proj1 (typing_indicator_sending_matters_deleting_does_not
                     (env_failing_at 3 (Output (Some (str "Hi there")))) 7
                     (str "Hello") (str "Hi there") world0 _) eq_refl).
    intros k Hk. do 3 (destruct k as [|k]; [reflexivity|]). lia.
  - refine (proj2 (typing_indicator_sending_matters_deleting_does_not
                     (env_failing_at 9 (Output (Some (str "Hi there")))) 7
                     (str "Hello") (str "Hi there") world0 _) _ eq_refl).
    + intros k Hk. do 3 (destruct k as [|k]; [reflexivity|]). lia.
    + intros k Hk. vm_compute in Hk. apply Nat.eqb_neq. simpl. lia.
Defined.

(** C9, as the specification states it, fails for the sending of the
    indicator: the LLM would answer [Hi there], but the indicator cannot
    be sent, and the reply is neither asked for nor delivered nor
    saved. *)
Lemma typing_indicator_failure_blocks_reply :
  handle_message (env_failing_at 3 (Output (Some (str "Hi there")))) 7
    (str "Hello") world0 =
    (Ok tt,
     {| db := ∅;
        trace := loaded 7 ++ [failed (OpReplyText typing_text);
                              delivered failure_text] |})
  /\ ~ In (delivered (str "Hi there" ++ [nl]))
         (trace (snd (handle_message
                        (env_failing_at 3 (Output (Some (str "Hi there")))) 7
                        (str "Hello") world0)))
  /\ db (snd (handle_message
                (env_failing_at 3 (Output (Some (str "Hi there")))) 7
                (str "Hello") world0)) !! 7 = None.
Proof.
  split; [reflexivity|]. split; [|reflexivity].
  intros Hin. vm_compute in Hin.
  repeat (destruct Hin as [Hin|Hin]; [discriminate Hin|]).
  exact Hin.
Qed.

(** * Further properties of the code *)

(** ** Chunk counts and sizes *)

Lemma range_len_ceiling (n size : Z) :
  0 <= n -> 0 < size -> range_len 0 n size = (n + size - 1) / size.
Proof.
  intros Hn Hsize. unfold range_len.
  destruct (Z.ltb_spec 0 size) as [_|]; [|lia].
  destruct (Z.ltb_spec 0 n) as [Hpos|Hzero].
  - replace (n + size - 1) with (n - 0 - 1 + 1 * size) by lia.
    rewrite Z.div_add by lia. reflexivity.
  - replace n with 0 by lia. symmetry. apply Z.div_small. lia.
Qed.

Lemma chunks_as_windows (content : text) (size : nat) :
  (0 < size)%nat ->
  chunks content (Z.of_nat size) =
    List.map (fun k => take size (drop (k * size) content))
      (seq 0 (Z.to_nat ((len content + Z.of_nat size - 1) / Z.of_nat size))).
Proof.
  intros Hsize. unfold chunks, range.
  destruct (Z.eqb_spec (Z.of_nat size) 0) as [|_]; [lia|].
  rewrite range_len_ceiling by (unfold len; lia).
  rewrite List.map_map. apply map_ext. intros k.
  replace (0 + Z.of_nat k * Z.of_nat size) with (Z.of_nat (k * size)) by lia.
  apply slice_window.
Qed.

Lemma ceiling_bounds (n size : Z) :
  0 <= n -> 0 < size ->
  let q := (n + size - 1) / size in
  0 <= q /\ n <= q * size /\ q * size < n + size.
Proof.
  intros Hn Hsize q.
  pose proof (Z.div_mod (n + size - 1) size ltac:(lia)) as Hdm.
  pose proof (Z.mod_pos_bound (n + size - 1) size ltac:(lia)) as Hmod.
  fold q in Hdm. split; [apply Z.div_pos; lia|]. nia.
Qed.

Section ChunkSizes.

Variable content : text.
Variable max_chunk_size : Z.
Hypothesis Hpos : 0 < max_chunk_size.

Let q := (len content + max_chunk_size - 1) / max_chunk_size.

Lemma chunks_windows_ceiling :
  chunks content max_chunk_size =
    List.map (fun k => take (Z.to_nat max_chunk_size)
                         (drop (k * Z.to_nat max_chunk_size) content))
      (seq 0 (Z.to_nat q)).
Proof.
  pose proof (chunks_as_windows content (Z.to_nat max_chunk_size) ltac:(lia)) as Heq.
  rewrite Z2Nat.id in Heq by lia. exact Heq.
Qed.

Lemma chunks_length :
  Z.of_nat (length (chunks content max_chunk_size)) = q.
Proof.
  destruct (ceiling_bounds (len content) max_chunk_size
              ltac:(unfold len; lia) Hpos) as (Hq0 & _ & _).
  rewrite chunks_windows_ceiling, length_map, length_seq. fold q in Hq0. lia.
Qed.

Lemma chunks_not_empty :
  Forall (fun c => 1 <= len c) (chunks content max_chunk_size).
Proof.
  destruct (ceiling_bounds (len content) max_chunk_size
              ltac:(unfold len; lia) Hpos) as (Hq0 & Hcover & Htight).
  fold q in Hq0, Hcover, Htight.
  rewrite chunks_windows_ceiling. apply List.Forall_forall. intros c Hin.
  apply in_map_iff in Hin as (k & <- & Hk). apply in_seq in Hk.
  unfold len in *. rewrite length_take, length_drop. nia.
Qed.

Lemma chunks_full_but_last (k : nat) (c : text) :
  chunks content max_chunk_size !! k = Some c ->
  (k + 1 < length (chunks content max_chunk_size))%nat ->
  len c = max_chunk_size.
Proof.
  destruct (ceiling_bounds (len content) max_chunk_size
              ltac:(unfold len; lia) Hpos) as (Hq0 & Hcover & Htight).
  fold q in Hq0, Hcover, Htight.
  pose proof chunks_length as Hlen.
  intros Hlook Hk.
  rewrite chunks_windows_ceiling in Hlook. rewrite list_lookup_fmap in Hlook.
  rewrite lookup_seq_lt in Hlook by lia. simpl in Hlook.
  injection Hlook as <-.
  unfold len in *. rewrite length_take, length_drop. nia.
Qed.

End ChunkSizes.

(** X1: for a positive limit the content is cut into the ceiling of
    [len / limit] chunks, none of them empty, and all of them but the
    last of exactly [limit] characters. *)
Theorem chunks_count_and_sizes
    (content : text) (max_chunk_size : Z) (Hpos : 0 < max_chunk_size) :
  Z.of_nat (length (chunks content max_chunk_size)) =
    (len content + max_chunk_size - 1) / max_chunk_size
  /\ Forall (fun c => 1 <= len c) (chunks content max_chunk_size)
  /\ (forall (k : nat) (c : text),
        chunks content max_chunk_size !! k = Some c ->
        (k + 1 < length (chunks content max_chunk_size))%nat ->
        len c = max_chunk_size).
Proof.
  split; [|split].
  - now apply chunks_length.
  - now apply chunks_not_empty.
  - intros k c. now apply chunks_full_but_last.
Qed.

Lemma chunks_count_and_sizes_witness :
  0 < 3
  /\ Z.of_nat (length (chunks (str "abcdefg") 3)) = (7 + 3 - 1) / 3
  /\ Forall (fun c => 1 <= len c) (chunks (str "abcdefg") 3).
Proof.
  split; [lia|].
  destruct (chunks_count_and_sizes (str "abcdefg") 3 ltac:(lia)) as (Hn & Hne & _).
  split; [exact Hn | exact Hne].
Defined.

(** X2: a non-empty content that fits the limit is delivered as one
    chunk, unchanged. *)
Theorem chunks_of_short_content
    (content : text) (max_chunk_size : Z)
    (Hne : content <> []) (Hfit : len content <= max_chunk_size) :
  chunks content max_chunk_size = [content].
Proof.
  assert (Hpos : 0 < max_chunk_size).
  { destruct content; [congruence|]. unfold len in Hfit. simpl in Hfit. lia. }
  pose proof (chunks_length content max_chunk_size Hpos) as Hcount.
  assert (Hone : (len content + max_chunk_size - 1) / max_chunk_size = 1).
  { symmetry. apply (Z.div_unique _ _ 1 (len content - 1)); [|lia].
    destruct content; [congruence|]. unfold len in *. simpl in *. lia. }
  rewrite Hone in Hcount.
  pose proof (chunks_concat content max_chunk_size Hpos) as Hcat.
  destruct (chunks content max_chunk_size) as [|c [|c' cs]]; simpl in Hcount; try lia.
  simpl in Hcat. rewrite app_nil_r in Hcat. now subst c.
Qed.

Lemma chunks_of_short_content_witness :
  chunks (str "Hi there" ++ [nl]) 4096 = [str "Hi there" ++ [nl]].
Proof.
  apply chunks_of_short_content; [discriminate | vm_compute; discriminate].
Defined.

(** X3: with the limit 0 [send_message_in_chunks] raises the ValueError
    of [range] before any delivery, also for an empty content; with a
    negative limit it returns normally and delivers nothing, whatever
    the content. *)
Theorem send_message_in_chunks_without_positive_limit
    (env : Env) (content : text) (max_chunk_size : Z) (w : World)
    (Hlimit : max_chunk_size <= 0) :
  send_message_in_chunks env content max_chunk_size w =
    (if max_chunk_size =? 0 then Raise ValueError else Ok tt, w).
Proof.
  unfold send_message_in_chunks, range, range_len.
  destruct (Z.eqb_spec max_chunk_size 0) as [|Hneg]; [reflexivity|].
  destruct (Z.ltb_spec 0 max_chunk_size) as [|_]; [lia|].
  destruct (Z.ltb_spec (len content) 0) as [Hlen|_]; [unfold len in Hlen; lia|].
  reflexivity.
Qed.

Lemma send_message_in_chunks_without_positive_limit_witness :
  send_message_in_chunks (env_reliable NoResponse) (str "abc") 0 world0 =
    (Raise ValueError, world0)
  /\ send_message_in_chunks (env_reliable NoResponse) (str "abc") (-5) world0 =
       (Ok tt, world0).
Proof.
  split.
  - exact (send_message_in_chunks_without_positive_limit
             (env_reliable NoResponse) (str "abc") 0 world0 ltac:(lia)).
  - exact (send_message_in_chunks_without_positive_limit
             (env_reliable NoResponse) (str "abc") (-5) world0 ltac:(lia)).
Defined.

(** ** The formatter on whole texts *)

Lemma join_split (t : text) : join [nl] (split t nl) = t.
Proof.
  induction t as [|c t IH]; [reflexivity|].
  pose proof (split_nonempty t nl) as Hne.
  cbn [split]. destruct (N.eqb_spec c nl) as [->|Hc].
  - destruct (split t nl) as [|l ls]; [congruence|].
    change (join [nl] ([] :: l :: ls)) with ([] ++ [nl] ++ join [nl] (l :: ls)).
    now rewrite IH.
  - destruct (split t nl) as [|l ls]; [congruence|].
    rewrite <- IH. now destruct ls.
Qed.

(** X4: a text whose lines are all trimmed already and do not start with
    a dash comes out of [format_list_as_markdown] unchanged, followed by
    one newline. *)
Theorem format_list_leaves_plain_text
    (t : text)
    (Hlines : forall line : text,
        In line (split t nl) ->
        strip line = line /\ startswith line (str "-") = false) :
  format_list_as_markdown t = t ++ [nl].
Proof.
  rewrite format_list_as_markdown_join. f_equal.
  rewrite <- (join_split t) at 2. f_equal.
  rewrite <- (List.map_id (split t nl)) at 2.
  apply map_ext_in. intros line Hin.
  destruct (Hlines line Hin) as [Htrim Hdash].
  unfold format_line. now rewrite Htrim, Hdash.
Qed.

Lemma format_list_leaves_plain_text_witness :
  format_list_as_markdown (str "Hi there" ++ [nl] ++ str "1. one") =
    (str "Hi there" ++ [nl] ++ str "1. one") ++ [nl].
Proof.
  apply format_list_leaves_plain_text.
  intros line Hin. vm_compute in Hin.
  destruct Hin as [<-|[<-|[]]]; split; reflexivity.
Defined.

Lemma newlines_app (s t : text) : newlines (s ++ t) = (newlines s + newlines t)%nat.
Proof. unfold newlines. now rewrite List.filter_app, length_app. Qed.

Lemma newlines_none (t : text) : ~ In nl t -> newlines t = 0%nat.
Proof.
  unfold newlines. induction t as [|c t IH]; intros Hno; [reflexivity|].
  cbn [List.filter]. destruct (N.eqb_spec c nl) as [->|_].
  - exfalso. apply Hno. now left.
  - apply IH. intros Hin. apply Hno. now right.
Qed.

Lemma split_lines_without_newline (t line : text) :
  In line (split t nl) -> ~ In nl line.
Proof.
  revert line. induction t as [|c t IH]; intros line Hin.
  - destruct Hin as [<-|[]]. intros [].
  - cbn [split] in Hin. destruct (N.eqb_spec c nl) as [->|Hc].
    + destruct Hin as [<-|Hin]; [intros []|now apply IH].
    + destruct (split t nl) as [|l ls] eqn:Hsplit.
      * destruct Hin as [<-|[]]. intros [Heq|[]]. congruence.
      * destruct Hin as [<-|Hin].
        -- intros [Heq|Hin]; [congruence|]. apply (IH l); [now left|exact Hin].
        -- apply IH. now right.
Qed.

Lemma split_length (t : text) : length (split t nl) = S (newlines t).
Proof.
  induction t as [|c t IH]; [reflexivity|].
  unfold newlines in *. cbn [split List.filter].
  destruct (c =? nl)%N.
  - simpl. now rewrite IH.
  - destruct (split t nl) as [|l ls]; [discriminate IH|]. exact IH.
Qed.

Lemma lstrip_subset (s : text) (c : char) : In c (lstrip s) -> In c s.
Proof.
  induction s as [|a s IH]; [intros []|]. simpl.
  destruct (isspace a); intros Hin; [right; now apply IH | exact Hin].
Qed.

Lemma strip_subset (s : text) (c : char) : In c (strip s) -> In c s.
Proof.
  unfold strip, rstrip. intros Hin.
  apply in_rev, lstrip_subset, in_rev in Hin.
  now apply lstrip_subset.
Qed.

Lemma format_line_without_newline (line : text) :
  ~ In nl line -> ~ In nl (format_line line).
Proof.
  intros Hno. unfold format_line.
  destruct (startswith (strip line) (str "-")).
  - change (Some 1) with (Some (Z.of_nat 1)). rewrite slice_from.
    intros [Hb|[Hs|Hin]]; [discriminate Hb | discriminate Hs |].
    apply strip_subset in Hin. apply Hno.
    apply list_elem_of_In. apply (subseteq_drop 1 line). now apply list_elem_of_In.
  - intros Hin. apply Hno. now apply strip_subset.
Qed.

Lemma newlines_of_lines (lines : list text) :
  (forall line, In line lines -> ~ In nl line) ->
  newlines (concat (List.map (fun line => format_line line ++ [nl]) lines)) =
    length lines.
Proof.
  induction lines as [|l lines IH]; intros Hno; [reflexivity|].
  cbn [List.map concat length]. rewrite !newlines_app, IH.
  - rewrite newlines_none; [reflexivity|].
    apply format_line_without_newline, Hno. now left.
  - intros line Hin. apply Hno. now right.
Qed.

(** X5: [format_list_as_markdown] neither merges nor splits lines: its
    output has exactly one newline more than its input, one after each
    line of the input. *)
Theorem format_list_keeps_the_lines (t : text) :
  newlines (format_list_as_markdown t) = S (newlines t)
  /\ length (split (format_list_as_markdown t) nl) = S (length (split t nl)).
Proof.
  assert (Hcount : newlines (format_list_as_markdown t) = S (newlines t)).
  { rewrite format_list_as_markdown_lines, newlines_of_lines.
    - apply split_length.
    - intros line. apply split_lines_without_newline. }
  split; [exact Hcount|].
  now rewrite !split_length, Hcount.
Qed.

Lemma split_single_line (line : text) : ~ In nl line -> split line nl = [line].
Proof.
  induction line as [|c line IH]; intros Hno; [reflexivity|].
  cbn [split]. destruct (N.eqb_spec c nl) as [->|_].
  - exfalso. apply Hno. now left.
  - rewrite IH; [reflexivity|]. intros Hin. apply Hno. now right.
Qed.

Lemma strip_cons_space (c : char) (rest : text) :
  isspace c = true -> strip (c :: rest) = strip rest.
Proof. intros Hc. unfold strip. simpl. now rewrite Hc. Qed.

Lemma strip_cons_head (c : char) (rest : text) :
  isspace c = false -> exists tail : text, strip (c :: rest) = c :: tail.
Proof.
  intros Hc. unfold strip. simpl. rewrite Hc, rstrip_cons, Hc.
  destruct (rstrip rest); eauto.
Qed.

(** X6: on a one-line text whose trimmed content starts with a dash, the
    output is the bullet, a space and the trimmed text after the first
    character of the line.  That character is the dash when the line has
    no leading whitespace; when it has, a whitespace character is
    dropped and the output keeps the dash after the bullet. *)
Theorem format_list_drops_the_first_character_of_a_dash_line
    (c : char) (rest : text)
    (Hline : ~ In nl (c :: rest))
    (Hdash : startswith (strip (c :: rest)) (str "-") = true) :
  format_list_as_markdown (c :: rest) = bullet :: space :: strip rest ++ [nl]
  /\ (isspace c = false -> c = 45%N)
  /\ (isspace c = true -> startswith (strip rest) (str "-") = true).
Proof.
  split; [|split].
  - rewrite format_list_as_markdown_lines, split_single_line by exact Hline.
    cbn [List.map concat]. rewrite app_nil_r.
    unfold format_line. rewrite Hdash.
    change (Some 1) with (Some (Z.of_nat 1)). now rewrite slice_from.
  - intros Hc. destruct (strip_cons_head c rest Hc) as [tail Heq].
    rewrite Heq in Hdash. change (str "-") with [45%N] in Hdash.
    cbn [startswith] in Hdash.
    apply andb_true_iff in Hdash as [Hdash _]. now apply N.eqb_eq.
  - intros Hc. now rewrite strip_cons_space in Hdash.
Qed.

Lemma format_list_drops_the_first_character_of_a_dash_line_witness :
  format_list_as_markdown (str " - a") = bullet :: space :: str "- a" ++ [nl]
  /\ format_list_as_markdown (str "- a") = bullet :: space :: str "a" ++ [nl].
Proof.
  split.
  - refine (proj1 (format_list_drops_the_first_character_of_a_dash_line
                     space (str "- a") _ eq_refl)).
    intros Hin. vm_compute in Hin.
    repeat (destruct Hin as [Hin|Hin]; [discriminate Hin|]). exact Hin.
  - refine (proj1 (format_list_drops_the_first_character_of_a_dash_line
                     45%N (str " a") _ eq_refl)).
    intros Hin. vm_compute in Hin.
    repeat (destruct Hin as [Hin|Hin]; [discriminate Hin|]). exact Hin.
Defined.

(** ** The context store *)

Lemma stored_history_insert (d : gmap Z Blob) (chat_id : chat_id_t) (h : History) :
  stored_history (<[chat_id := BlobJson h]> d) chat_id = h.
Proof. unfold stored_history. now rewrite lookup_insert_eq. Qed.

Lemma stored_history_insert_other (d : gmap Z Blob) (c chat_id : chat_id_t) (b : Blob) :
  c <> chat_id ->
  stored_history (<[chat_id := b]> d) c = stored_history d c.
Proof. intros Hc. unfold stored_history. now rewrite lookup_insert_ne. Qed.

(** A save and a load in which nothing raises. *)
Lemma save_context_saved
    (env : Env) (chat_id : chat_id_t) (h : History) (w : World) :
  (forall k : nat, (k < 3)%nat -> op_fails env (length (trace w) + k) = false) ->
  save_context env chat_id h w =
    (Ok tt,
     {| db := <[chat_id := BlobJson h]> (db w);
        trace := trace w ++ saved_as chat_id h |}).
Proof.
  intros Hok.
  pose proof (Hok 0%nat ltac:(lia)) as H0. rewrite Nat.add_0_r in H0.
  pose proof (Hok 1%nat ltac:(lia)) as H1.
  pose proof (Hok 2%nat ltac:(lia)) as H2.
  rewrite save_context_run. cbn zeta. now rewrite H0, H1, H2.
Qed.

Lemma get_context_loaded (env : Env) (chat_id : chat_id_t) (w : World) :
  (forall k : nat, (k < 3)%nat -> op_fails env (length (trace w) + k) = false) ->
  get_context env chat_id w =
    (Ok (stored_history (db w) chat_id), extend w (loaded chat_id)).
Proof.
  intros Hok.
  pose proof (Hok 0%nat ltac:(lia)) as H0. rewrite Nat.add_0_r in H0.
  pose proof (Hok 1%nat ltac:(lia)) as H1.
  pose proof (Hok 2%nat ltac:(lia)) as H2.
  rewrite get_context_run. cbn zeta. now rewrite H0, H1, H2.
Qed.

(** X7: with a reachable store, saving a history and then loading the
    chat returns that history: the row written by [save_context] is read
    back by [get_context] as it was given. *)
Theorem save_context_then_get_context
    (env : Env) (chat_id : chat_id_t) (h : History) (w : World)
    (Hok : forall k : nat, (k < 6)%nat -> op_fails env (length (trace w) + k) = false) :
  bind (save_context env chat_id h) (fun _ => get_context env chat_id) w =
    (Ok h,
     {| db := <[chat_id := BlobJson h]> (db w);
        trace := trace w ++ saved_as chat_id h ++ loaded chat_id |}).
Proof.
  unfold bind.
  rewrite save_context_saved by (intros k Hk; apply Hok; lia).
  rewrite get_context_loaded.
  - cbn [db]. rewrite stored_history_insert.
    unfold extend. cbn [db trace]. now rewrite <- app_assoc.
  - intros k Hk. cbn [trace]. rewrite length_app. cbn [length saved_as].
    rewrite <- Nat.add_assoc. apply Hok. lia.
Qed.

Lemma save_context_then_get_context_witness :
  bind (save_context (env_reliable NoResponse) 7
          [ {| role := user; content := str "Hello" |} ])
       (fun _ => get_context (env_reliable NoResponse) 7) world0 =
    (Ok [ {| role := user; content := str "Hello" |} ],
     {| db := <[7 := BlobJson [ {| role := user; content := str "Hello" |} ]]> ∅;
        trace := saved_as 7 [ {| role := user; content := str "Hello" |} ]
                 ++ loaded 7 |}).
Proof.
  exact (save_context_then_get_context (env_reliable NoResponse) 7
           [ {| role := user; content := str "Hello" |} ] world0
           (fun k _ => eq_refl)).
Defined.

(** X8: [save_context] replaces the row: after two saves for one chat
    the table is the one the second save alone would have written, and a
    load returns the second history. *)
Theorem save_context_last_writer_wins
    (env : Env) (chat_id : chat_id_t) (h1 h2 : History) (w : World)
    (Hok : forall k : nat, (k < 9)%nat -> op_fails env (length (trace w) + k) = false) :
  bind (save_context env chat_id h1)
       (fun _ => bind (save_context env chat_id h2)
                      (fun _ => get_context env chat_id)) w =
    (Ok h2,
     {| db := <[chat_id := BlobJson h2]> (db w);
        trace := trace w ++ saved_as chat_id h1 ++ saved_as chat_id h2
                 ++ loaded chat_id |}).
Proof.
  unfold bind.
  rewrite save_context_saved by (intros k Hk; apply Hok; lia).
  rewrite save_context_saved.
  2:{ intros k Hk. cbn [trace]. rewrite length_app. cbn [length saved_as].
      rewrite <- Nat.add_assoc. apply Hok. lia. }
  rewrite get_context_loaded.
  2:{ intros k Hk. cbn [trace]. rewrite !length_app. cbn [length saved_as].
      rewrite <- !Nat.add_assoc. apply Hok. lia. }
  cbn [db]. rewrite insert_insert_eq, stored_history_insert.
  unfold extend. cbn [db trace]. now rewrite <- !app_assoc.
Qed.

Lemma save_context_last_writer_wins_witness :
  fst (bind (save_context (env_reliable NoResponse) 7
               [ {| role := user; content := str "a" |} ])
            (fun _ => bind (save_context (env_reliable NoResponse) 7
                              [ {| role := user; content := str "b" |} ])
                           (fun _ => get_context (env_reliable NoResponse) 7))
            world0) =
    Ok [ {| role := user; content := str "b" |} ].
Proof.
  rewrite (save_context_last_writer_wins (env_reliable NoResponse) 7
             [ {| role := user; content := str "a" |} ]
             [ {| role := user; content := str "b" |} ] world0
             (fun k _ => eq_refl)).
  reflexivity.
Defined.

(** ** Relations that every run keeps *)

Section Preservation.

Variable R : World -> World -> Prop.
Hypothesis R_refl : forall w : World, R w w.
Hypothesis R_trans : forall w1 w2 w3 : World, R w1 w2 -> R w2 w3 -> R w1 w3.

Lemma preserves_ret {A} (a : A) : preserves R (ret a).
Proof. intros w w' r Hrun. injection Hrun as _ <-. apply R_refl. Qed.

Lemma preserves_raise {A} (e : Exn) : preserves R (@raise A e).
Proof. intros w w' r Hrun. injection Hrun as _ <-. apply R_refl. Qed.

Lemma preserves_bind {A B} (m : M A) (k : A -> M B) :
  preserves R m -> (forall a : A, preserves R (k a)) -> preserves R (bind m k).
Proof.
  intros Hm Hk w w' r Hrun. unfold bind in Hrun.
  destruct (m w) as [[a|e] w1] eqn:Hfirst.
  - eapply R_trans; [eapply Hm, Hfirst | eapply Hk, Hrun].
  - injection Hrun as _ <-. eapply Hm, Hfirst.
Qed.

Lemma preserves_try_except {A} (m : M A) (h : Exn -> M A) :
  preserves R m -> (forall e : Exn, preserves R (h e)) ->
  preserves R (try_except m h).
Proof.
  intros Hm Hh w w' r Hrun. unfold try_except in Hrun.
  destruct (m w) as [[a|e] w1] eqn:Hfirst.
  - injection Hrun as _ <-. eapply Hm, Hfirst.
  - eapply R_trans; [eapply Hm, Hfirst | eapply Hh, Hrun].
Qed.

Lemma preserves_try_finally {A} (m : M A) (f : M unit) :
  preserves R m -> preserves R f -> preserves R (try_finally m f).
Proof.
  intros Hm Hf w w' r Hrun. unfold try_finally in Hrun.
  destruct (m w) as [r1 w1] eqn:Hfirst.
  destruct (f w1) as [[u|e] w2] eqn:Hlast;
    injection Hrun as _ <-;
    (eapply R_trans; [eapply Hm, Hfirst | eapply Hf, Hlast]).
Qed.

Lemma preserves_for_each {A} (l : list A) (body : A -> M unit) :
  (forall x : A, In x l -> preserves R (body x)) ->
  preserves R (for_each l body).
Proof.
  induction l as [|x l IH]; intros Hbody.
  - apply preserves_ret.
  - cbn [for_each]. apply preserves_bind.
    + apply Hbody. now left.
    + intros _. apply IH. intros y Hy. apply Hbody. now right.
Qed.

End Preservation.

Lemma chunk_fits_transport (content c : text) :
  In c (chunks content 4096) -> 1 <= len c <= 4096.
Proof.
  intros Hin.
  pose proof (chunks_not_empty content 4096 ltac:(lia)) as Hne.
  pose proof (chunks_bounded content 4096 ltac:(lia)) as Hle.
  rewrite List.Forall_forall in Hne, Hle.
  split; [now apply Hne | now apply Hle].
Qed.

(** The handler is built from five kinds of steps: what each of them
    keeps, the handler keeps. *)
Section HandlerPreservation.

Variable env : Env.
Variable chat_id : chat_id_t.
Variable R : World -> World -> Prop.
Hypothesis R_refl : forall w : World, R w w.
Hypothesis R_trans : forall w1 w2 w3 : World, R w1 w2 -> R w2 w3 -> R w1 w3.
Hypothesis R_reply :
  forall t : text, 1 <= len t <= 4096 -> preserves R (reply_text env t).
Hypothesis R_delete : forall m : nat, preserves R (message_delete env m).
Hypothesis R_call :
  forall (p : text) (ms : list Turn), preserves R (application_call env p ms).
Hypothesis R_load : preserves R (get_context env chat_id).
Hypothesis R_save : forall h : History, preserves R (save_context env chat_id h).

Lemma send_text_preserves (t : text) :
  1 <= len t <= 4096 -> preserves R (send_text env t).
Proof.
  intros Hfit. unfold send_text. apply preserves_bind; [exact R_trans| |].
  - now apply R_reply.
  - intros _. now apply preserves_ret.
Qed.

Lemma send_message_in_chunks_preserves (content : text) :
  preserves R (send_message_in_chunks env content 4096).
Proof.
  intros w w' r Hrun. rewrite send_message_in_chunks_loop in Hrun by lia.
  revert w w' r Hrun. apply preserves_for_each; [exact R_refl | exact R_trans|].
  intros c Hin. apply send_text_preserves. now apply (chunk_fits_transport content).
Qed.

Lemma report_failure_preserves (e : Exn) : preserves R (report_failure env e).
Proof.
  unfold report_failure. apply preserves_bind; [exact R_trans| |].
  - apply R_reply. vm_compute. split; discriminate.
  - intros _. now apply preserves_ret.
Qed.

Lemma report_no_response_preserves : preserves R (report_no_response env).
Proof.
  unfold report_no_response. apply preserves_bind; [exact R_trans| |].
  - apply R_reply. vm_compute. split; discriminate.
  - intros _. now apply preserves_ret.
Qed.

Lemma deliveries_preserve (output_content : text) :
  preserves R
    (try_except
       (send_message_in_chunks env
          (clean_markdown (format_list_as_markdown output_content)) 4096)
       (fun _ => send_message_in_chunks env output_content 4096)).
Proof.
  apply preserves_try_except; [exact R_trans| |].
  - apply send_message_in_chunks_preserves.
  - intros _. apply send_message_in_chunks_preserves.
Qed.

Lemma respond_preserves (context_data : History) (output_content : text) :
  preserves R (respond env chat_id context_data output_content).
Proof.
  unfold respond. cbn zeta. apply preserves_bind; [exact R_trans| |].
  - apply deliveries_preserve.
  - intros _. apply R_save.
Qed.

Lemma exchange_preserves (context_data : History) (prompt : text) :
  preserves R (exchange env chat_id context_data prompt).
Proof.
  unfold exchange. apply preserves_bind; [exact R_trans| |].
  - apply R_reply. vm_compute. split; discriminate.
  - intros typing_message. cbn zeta.
    apply preserves_bind; [exact R_trans|apply R_call|].
    intros response. apply preserves_bind; [exact R_trans| |].
    + destruct response as [| |[output_content|]].
      * apply report_no_response_preserves.
      * apply report_no_response_preserves.
      * apply respond_preserves.
      * now apply preserves_raise.
    + intros _. apply R_delete.
Qed.

Lemma handle_message_preserves (user_message : text) :
  preserves R (handle_message env chat_id user_message).
Proof.
  intros w w' r Hrun. rewrite handle_message_blocks in Hrun.
  destruct (get_context env chat_id w) as [[h|e] w1] eqn:Hload.
  - eapply R_trans; [eapply R_load, Hload|].
    revert Hrun. apply preserves_try_except; [exact R_trans| |].
    + apply exchange_preserves.
    + apply report_failure_preserves.
  - injection Hrun as _ <-. eapply R_load, Hload.
Qed.

End HandlerPreservation.

Section Kept.

Variable env : Env.
Variable chat_id : chat_id_t.
Variable D : gmap Z Blob -> gmap Z Blob -> Prop.
Hypothesis D_refl : forall d : gmap Z Blob, D d d.
Hypothesis D_trans : forall d1 d2 d3 : gmap Z Blob, D d1 d2 -> D d2 d3 -> D d1 d3.
Hypothesis D_upsert :
  forall (d : gmap Z Blob) (h : History), D d (<[chat_id := BlobJson h]> d).

Let P (e : Event) : Prop := fits_transport e /\ own_row chat_id e.

Ltac events_ok :=
  repeat first
    [ apply List.Forall_nil
    | apply List.Forall_cons;
      [split; first [exact I | reflexivity | eassumption]|] ].

Lemma kept_refl (w : World) : kept D P w w.
Proof.
  split; [apply D_refl|]. exists []. now rewrite app_nil_r.
Qed.

Lemma kept_trans (w1 w2 w3 : World) :
  kept D P w1 w2 -> kept D P w2 w3 -> kept D P w1 w3.
Proof.
  intros (Hd1 & evs1 & Ht1 & Hp1) (Hd2 & evs2 & Ht2 & Hp2).
  split; [eapply D_trans; eassumption|].
  exists (evs1 ++ evs2). split.
  - now rewrite Ht2, Ht1, app_assoc.
  - apply Forall_app. now split.
Qed.

Lemma extend_kept (w : World) (evs : list Event) :
  Forall P evs -> kept D P w (extend w evs).
Proof. intros Hevs. split; [apply D_refl|]. now exists evs. Qed.

Lemma reply_text_kept (t : text) :
  1 <= len t <= 4096 -> preserves (kept D P) (reply_text env t).
Proof.
  intros Hfit w w' r. rewrite reply_text_run.
  case_op; intros Hrun; injection Hrun as _ <-;
    apply extend_kept; events_ok.
Qed.

Lemma message_delete_kept (m : nat) : preserves (kept D P) (message_delete env m).
Proof.
  intros w w' r. rewrite message_delete_run.
  case_op; intros Hrun; injection Hrun as _ <-;
    apply extend_kept; events_ok.
Qed.

Lemma application_call_kept (p : text) (ms : list Turn) :
  preserves (kept D P) (application_call env p ms).
Proof.
  intros w w' r. rewrite application_call_run.
  case_op; intros Hrun; injection Hrun as _ <-;
    apply extend_kept; events_ok.
Qed.

Lemma get_context_kept : preserves (kept D P) (get_context env chat_id).
Proof.
  intros w w' r. rewrite get_context_run. cbn zeta.
  repeat case_op; intros Hrun; injection Hrun as _ <-;
    apply extend_kept; events_ok.
Qed.

Lemma save_context_kept (h : History) :
  preserves (kept D P) (save_context env chat_id h).
Proof.
  intros w w' r. rewrite save_context_run. cbn zeta.
  case_op; [intros Hrun; injection Hrun as _ <-;
            apply extend_kept; events_ok|].
  destruct (op_fails env (length (trace w) + 1));
    case_op; intros Hrun; injection Hrun as _ <-;
    (split; [cbn [db]; first [apply D_refl | apply D_upsert]|]);
    eexists; (split; [reflexivity|]); events_ok.
Qed.

Lemma handle_message_kept (user_message : text) :
  preserves (kept D P) (handle_message env chat_id user_message).
Proof.
  apply handle_message_preserves.
  - exact kept_refl.
  - exact kept_trans.
  - exact reply_text_kept.
  - exact message_delete_kept.
  - exact application_call_kept.
  - exact get_context_kept.
  - exact save_context_kept.
Qed.

End Kept.

(** X9: whatever fails, a run of [handle_message] leaves the rows of all
    other chats exactly as they were, and every query and write it
    attempts is for its own chat. *)
Theorem handle_message_touches_its_own_row_only
    (env : Env) (chat_id : chat_id_t) (user_message : text)
    (w w' : World) (r : Outcome unit)
    (Hrun : handle_message env chat_id user_message w = (r, w')) :
  (forall c : chat_id_t, c <> chat_id -> db w' !! c = db w !! c)
  /\ exists evs : list Event,
       trace w' = trace w ++ evs /\ Forall (own_row chat_id) evs.
Proof.
  destruct (handle_message_kept env chat_id (other_rows_alone chat_id)) with
    (user_message := user_message) (w := w) (w' := w') (r := r)
    as (Hrows & evs & Htrace & Hevs).
  - intros d c _. reflexivity.
  - intros d1 d2 d3 H12 H23 c Hc. rewrite (H23 c Hc). now apply H12.
  - intros d h c Hc. now apply lookup_insert_ne.
  - exact Hrun.
  - split; [exact Hrows|]. exists evs. split; [exact Htrace|].
    eapply List.Forall_impl; [|exact Hevs]. now intros e [_ Hown].
Qed.

Lemma handle_message_touches_its_own_row_only_witness :
  let w := {| db := <[8 := BlobJson [ {| role := user; content := str "other" |} ]]> ∅;
              trace := [] |} in
  db (snd (handle_message (env_reliable (Output (Some (str "Hi")))) 7 (str "Hello") w))
    !! 8 = Some (BlobJson [ {| role := user; content := str "other" |} ]).
Proof.
  intros w.
  destruct (handle_message_touches_its_own_row_only
              (env_reliable (Output (Some (str "Hi")))) 7 (str "Hello") w
              (snd (handle_message (env_reliable (Output (Some (str "Hi")))) 7
                      (str "Hello") w))
              (fst (handle_message (env_reliable (Output (Some (str "Hi")))) 7
                      (str "Hello") w))
              eq_refl) as [Hrows _].
  etransitivity; [apply (Hrows 8); lia | reflexivity].
Defined.

(** X10: whatever fails and whatever the LLM answers, every text that a
    run of [handle_message] hands to the transport is non-empty and at
    most 4096 characters long. *)
Theorem handle_message_texts_fit_the_transport
    (env : Env) (chat_id : chat_id_t) (user_message : text)
    (w w' : World) (r : Outcome unit)
    (Hrun : handle_message env chat_id user_message w = (r, w')) :
  exists evs : list Event,
    trace w' = trace w ++ evs /\ Forall fits_transport evs.
Proof.
  destruct (handle_message_kept env chat_id (fun _ _ => True)) with
    (user_message := user_message) (w := w) (w' := w') (r := r)
    as (_ & evs & Htrace & Hevs); try (intros; exact I); try exact Hrun.
  exists evs. split; [exact Htrace|].
  eapply List.Forall_impl; [|exact Hevs]. now intros e [Hfit _].
Qed.

Lemma handle_message_texts_fit_the_transport_witness :
  exists evs : list Event,
    trace (snd (handle_message (env_reliable (Output (Some (str "Hi")))) 7
                  (str "Hello") world0)) = trace world0 ++ evs
    /\ Forall fits_transport evs.
Proof.
  exact (handle_message_texts_fit_the_transport
           (env_reliable (Output (Some (str "Hi")))) 7 (str "Hello") world0
           (snd (handle_message (env_reliable (Output (Some (str "Hi")))) 7
                   (str "Hello") world0))
           (fst (handle_message (env_reliable (Output (Some (str "Hi")))) 7
                   (str "Hello") world0))
           eq_refl).
Defined.

(** ** Connections *)

Lemma opened_app (a b : list Event) : opened (a ++ b) = (opened a + opened b)%nat.
Proof. unfold opened. now rewrite List.filter_app, length_app. Qed.

Lemma closings_app (a b : list Event) :
  closings (a ++ b) = (closings a + closings b)%nat.
Proof. unfold closings. now rewrite List.filter_app, length_app. Qed.

Lemma releases_refl (w : World) : releases w w.
Proof. exists []. now rewrite app_nil_r. Qed.

Lemma releases_trans (w1 w2 w3 : World) :
  releases w1 w2 -> releases w2 w3 -> releases w1 w3.
Proof.
  intros (evs1 & Ht1 & Hc1) (evs2 & Ht2 & Hc2).
  exists (evs1 ++ evs2). split.
  - now rewrite Ht2, Ht1, app_assoc.
  - rewrite opened_app, closings_app. lia.
Qed.

Lemma releases_extend (w : World) (evs : list Event) :
  opened evs = closings evs -> releases w (extend w evs).
Proof. intros Hevs. now exists evs. Qed.

Section Releases.

Variable env : Env.

Lemma reply_text_releases (t : text) : preserves releases (reply_text env t).
Proof.
  intros w w' r. rewrite reply_text_run.
  case_op; intros Hrun; injection Hrun as _ <-; now apply releases_extend.
Qed.

Lemma message_delete_releases (m : nat) : preserves releases (message_delete env m).
Proof.
  intros w w' r. rewrite message_delete_run.
  case_op; intros Hrun; injection Hrun as _ <-; now apply releases_extend.
Qed.

Lemma application_call_releases (p : text) (ms : list Turn) :
  preserves releases (application_call env p ms).
Proof.
  intros w w' r. rewrite application_call_run.
  case_op; intros Hrun; injection Hrun as _ <-; now apply releases_extend.
Qed.

Lemma get_context_releases (chat_id : chat_id_t) :
  preserves releases (get_context env chat_id).
Proof.
  intros w w' r. rewrite get_context_run. cbn zeta.
  repeat case_op; intros Hrun; injection Hrun as _ <-; now apply releases_extend.
Qed.

Lemma save_context_releases (chat_id : chat_id_t) (h : History) :
  preserves releases (save_context env chat_id h).
Proof.
  intros w w' r. rewrite save_context_run. cbn zeta.
  case_op; [intros Hrun; injection Hrun as _ <-; now apply releases_extend|].
  destruct (op_fails env (length (trace w) + 1));
    case_op; intros Hrun; injection Hrun as _ <-;
    eexists; (split; [reflexivity|]); reflexivity.
Qed.

End Releases.

(** X11: whatever fails, a run of [handle_message] attempts to close
    every connection it opened: the connections opened and the closings
    attempted are equally many.  The same holds of [get_context] and of
    [save_context] alone. *)
Theorem handle_message_closes_its_connections
    (env : Env) (chat_id : chat_id_t) (user_message : text)
    (w w' : World) (r : Outcome unit)
    (Hrun : handle_message env chat_id user_message w = (r, w')) :
  (exists evs : list Event,
     trace w' = trace w ++ evs /\ opened evs = closings evs)
  /\ preserves releases (get_context env chat_id)
  /\ (forall h : History, preserves releases (save_context env chat_id h)).
Proof.
  split; [|split].
  - exact (handle_message_preserves env chat_id releases
             releases_refl releases_trans
             (fun t _ => reply_text_releases env t)
             (message_delete_releases env)
             (application_call_releases env)
             (get_context_releases env chat_id)
             (save_context_releases env chat_id)
             user_message w w' r Hrun).
  - apply get_context_releases.
  - apply save_context_releases.
Qed.

Lemma handle_message_closes_its_connections_witness :
  exists evs : list Event,
    trace (snd (handle_message (env_failing_at 7 (Output (Some (str "Hi")))) 7
                  (str "Hello") world0)) = trace world0 ++ evs
    /\ opened evs = closings evs.
Proof.
  exact (proj1 (handle_message_closes_its_connections
           (env_failing_at 7 (Output (Some (str "Hi")))) 7 (str "Hello") world0
           (snd (handle_message (env_failing_at 7 (Output (Some (str "Hi")))) 7
                   (str "Hello") world0))
           (fst (handle_message (env_failing_at 7 (Output (Some (str "Hi")))) 7
                   (str "Hello") world0))
           eq_refl)).
Defined.

(** ** The paths of the handler *)

(** The run after a load whose connection opened and closed. *)
Lemma handle_message_loaded
    (env : Env) (chat_id : chat_id_t) (user_message : text) (w : World) :
  let n := length (trace w) in
  let h := if op_fails env (n + 1) then [] else stored_history (db w) chat_id in
  let fetched := {| ev_op := OpFetchrow chat_id;
                    ev_ok := negb (op_fails env (n + 1)) |} in
  op_fails env n = false ->
  op_fails env (n + 2) = false ->
  handle_message env chat_id user_message w =
    try_except
      (exchange env chat_id (h ++ [user_turn user_message])
         (clean_markdown user_message))
      (report_failure env)
      (extend w [done_ok OpConnect; fetched; done_ok OpClose]).
Proof.
  intros n h fetched H0 H2. subst n h fetched.
  rewrite handle_message_blocks, get_context_run. cbn zeta.
  now rewrite H0, H2.
Qed.

Section SameTable.

Variable env : Env.

Lemma same_table_refl (w : World) : same_table w w.
Proof. reflexivity. Qed.

Lemma same_table_trans (w1 w2 w3 : World) :
  same_table w1 w2 -> same_table w2 w3 -> same_table w1 w3.
Proof. unfold same_table. congruence. Qed.

Lemma reply_text_same_table (t : text) : preserves same_table (reply_text env t).
Proof.
  intros w w' r. rewrite reply_text_run.
  case_op; intros Hrun; now injection Hrun as _ <-.
Qed.

Lemma message_delete_same_table (m : nat) :
  preserves same_table (message_delete env m).
Proof.
  intros w w' r. rewrite message_delete_run.
  case_op; intros Hrun; now injection Hrun as _ <-.
Qed.

Lemma application_call_same_table (p : text) (ms : list Turn) :
  preserves same_table (application_call env p ms).
Proof.
  intros w w' r. rewrite application_call_run.
  case_op; intros Hrun; now injection Hrun as _ <-.
Qed.

Lemma report_failure_same_table (e : Exn) :
  preserves same_table (report_failure env e).
Proof.
  intros w w' r. rewrite report_failure_run.
  case_op; intros Hrun; now injection Hrun as _ <-.
Qed.

Lemma get_context_same_table (chat_id : chat_id_t) :
  preserves same_table (get_context env chat_id).
Proof.
  intros w w' r. rewrite get_context_run. cbn zeta.
  repeat case_op; intros Hrun; now injection Hrun as _ <-.
Qed.

Lemma deliveries_same_table (chat_id : chat_id_t) (raw : text) :
  preserves same_table
    (try_except
       (send_message_in_chunks env
          (clean_markdown (format_list_as_markdown raw)) 4096)
       (fun _ => send_message_in_chunks env raw 4096)).
Proof.
  apply (deliveries_preserve env same_table).
  - exact same_table_refl.
  - exact same_table_trans.
  - intros t _. apply reply_text_same_table.
Qed.

(** The table after the branch of a usable reply: the deliveries leave
    it alone, and the save writes the row or, when it fails, leaves it
    too. *)
Lemma respond_table
    (chat_id : chat_id_t) (context_data : History) (raw : text)
    (w w' : World) (r : Outcome unit) :
  respond env chat_id context_data raw w = (r, w') ->
  db w' = db w
  \/ db w' = <[chat_id := BlobJson (context_data ++ [assistant_turn raw])]> (db w).
Proof.
  unfold respond. cbn zeta. unfold bind at 1.
  destruct (try_except _ _ w) as [[[]|e] w1] eqn:Hsend;
    apply (deliveries_same_table chat_id) in Hsend; unfold same_table in Hsend.
  - rewrite save_context_run. cbn zeta. rewrite <- Hsend.
    case_op; [intros Hrun; injection Hrun as _ <-; now left|].
    destruct (op_fails env (length (trace w1) + 1));
      case_op; intros Hrun; injection Hrun as _ <-; cbn [db]; auto.
  - intros Hrun. injection Hrun as _ <-. now left.
Qed.

Lemma report_no_response_same_table :
  preserves same_table (report_no_response env).
Proof.
  unfold report_no_response. apply preserves_bind; [exact same_table_trans| |].
  - apply reply_text_same_table.
  - intros _. apply preserves_ret. exact same_table_refl.
Qed.

Lemma exchange_table
    (chat_id : chat_id_t) (context_data : History) (prompt : text)
    (w w' : World) (r : Outcome unit) :
  exchange env chat_id context_data prompt w = (r, w') ->
  db w' = db w
  \/ exists raw : text,
       db w' = <[chat_id := BlobJson (context_data ++ [assistant_turn raw])]> (db w).
Proof.
  unfold exchange. unfold bind at 1.
  destruct (reply_text env typing_text w) as [[typing_message|e] w1] eqn:Htyping;
    apply reply_text_same_table in Htyping; unfold same_table in Htyping;
    [|intros Hrun; injection Hrun as _ <-; now left].
  cbn zeta. unfold bind at 1.
  destruct (application_call env prompt _ w1) as [[response|e] w2] eqn:Hcall;
    apply application_call_same_table in Hcall; unfold same_table in Hcall;
    [|intros Hrun; injection Hrun as _ <-; left; congruence].
  unfold bind at 1.
  destruct response as [| |[raw|]];
    [fold (report_no_response env) | fold (report_no_response env) | |].
  1, 2: destruct (report_no_response env w2) as [[[]|e] w3] eqn:Hno;
    apply report_no_response_same_table in Hno; intros Hrun;
    [apply message_delete_same_table in Hrun | injection Hrun as _ <-];
    unfold same_table in *; left; congruence.
  - destruct (respond env chat_id context_data raw w2) as [[[]|e] w3] eqn:Hrespond;
      apply respond_table in Hrespond; intros Hrun;
      [apply message_delete_same_table in Hrun; unfold same_table in Hrun
      |injection Hrun as _ <-];
      (destruct Hrespond as [Hsame|Hsaved];
       [left; congruence | right; exists raw; congruence]).
  - intros Hrun. injection Hrun as _ <-. left. congruence.
Qed.

End SameTable.

(** X12: whatever fails, a run of [handle_message] either leaves the
    table as it was or replaces the row of its chat by the history it
    loaded followed by the new user turn and the formatted assistant
    turn; the history it loaded is the stored one, or the empty one when
    the query failed. *)
Theorem handle_message_appends_two_turns_or_nothing
    (env : Env) (chat_id : chat_id_t) (user_message : text)
    (w w' : World) (r : Outcome unit)
    (Hrun : handle_message env chat_id user_message w = (r, w')) :
  db w' = db w
  \/ exists (h : History) (raw : text),
       (h = stored_history (db w) chat_id
        \/ (h = [] /\ op_fails env (length (trace w) + 1) = true))
       /\ db w' = <[chat_id := BlobJson (h ++ [user_turn user_message;
                                                assistant_turn raw])]> (db w).
Proof.
  rewrite handle_message_blocks, get_context_run in Hrun. cbn zeta in Hrun.
  destruct (op_fails env (length (trace w)));
    [injection Hrun as _ <-; now left|].
  destruct (op_fails env (length (trace w) + 2));
    [injection Hrun as _ <-; now left|].
  unfold try_except in Hrun.
  destruct (exchange env chat_id _ _ _) as [[[]|e] w1] eqn:Hexchange;
    apply exchange_table in Hexchange; cbn [extend db] in Hexchange.
  - injection Hrun as _ <-.
    destruct Hexchange as [Hsame|[raw Hsaved]]; [now left|right].
    rewrite <- app_assoc in Hsaved. cbn [app] in Hsaved.
    destruct (op_fails env (length (trace w) + 1)) eqn:Hquery;
      eexists _, raw; (split; [|exact Hsaved]); auto.
  - apply report_failure_same_table in Hrun. unfold same_table in Hrun.
    rewrite Hrun.
    destruct Hexchange as [Hsame|[raw Hsaved]]; [now left|right].
    rewrite <- app_assoc in Hsaved. cbn [app] in Hsaved.
    destruct (op_fails env (length (trace w) + 1)) eqn:Hquery;
      eexists _, raw; (split; [|exact Hsaved]); auto.
Qed.

Lemma handle_message_appends_two_turns_or_nothing_witness :
  db (snd (handle_message (env_failing_at 1 (Output (Some (str "Hi")))) 7
             (str "Hello") world0)) = db world0
  \/ exists (h : History) (raw : text),
       (h = stored_history (db world0) 7
        \/ (h = [] /\ op_fails (env_failing_at 1 (Output (Some (str "Hi"))))
                        (length (trace world0) + 1) = true))
       /\ db (snd (handle_message (env_failing_at 1 (Output (Some (str "Hi")))) 7
                     (str "Hello") world0)) =
          <[7 := BlobJson (h ++ [user_turn (str "Hello"); assistant_turn raw])]>
            (db world0).
Proof.
  exact (handle_message_appends_two_turns_or_nothing
           (env_failing_at 1 (Output (Some (str "Hi")))) 7 (str "Hello") world0
           (snd (handle_message (env_failing_at 1 (Output (Some (str "Hi")))) 7
                   (str "Hello") world0))
           (fst (handle_message (env_failing_at 1 (Output (Some (str "Hi")))) 7
                   (str "Hello") world0))
           eq_refl).
Defined.

(** The exchange up to the save, when the indicator, the call and the
    formatted chunks all get through. *)
Lemma exchange_delivered
    (env : Env) (chat_id : chat_id_t) (context_data : History)
    (prompt raw : text) (w : World) :
  let m := length (trace w) in
  let formatted := clean_markdown (format_list_as_markdown raw) in
  (forall k : nat, (k < 2 + length (chunks formatted 4096))%nat ->
     op_fails env (m + k) = false) ->
  llm_response env (m + 1) prompt context_data = Output (Some raw) ->
  try_except (exchange env chat_id context_data prompt) (report_failure env) w =
    try_except
      (bind (save_context env chat_id (context_data ++ [assistant_turn raw]))
            (fun _ => message_delete env m))
      (report_failure env)
      (extend w ([delivered typing_text; done_ok (OpCall prompt context_data)]
                 ++ List.map delivered (chunks formatted 4096))).
Proof.
  intros m formatted Hok Hreply.
  pose proof (Hok 0%nat ltac:(lia)) as H0. rewrite Nat.add_0_r in H0.
  pose proof (Hok 1%nat ltac:(lia)) as H1.
  unfold try_except at 1. rewrite exchange_run. cbn zeta.
  fold m. rewrite H0, H1, Hreply.
  unfold bind at 1. rewrite respond_delivered.
  - rewrite extend_extend. reflexivity.
  - intros j Hj. rewrite trace_extend_length. cbn [length]. fold m.
    rewrite <- Nat.add_assoc. apply Hok. fold formatted in Hj. lia.
Qed.

(** The run in which nothing raises and the LLM gives a usable reply. *)
Lemma handle_message_exchanged
    (env : Env) (chat_id : chat_id_t) (user_message raw : text) (w : World) :
  let n := length (trace w) in
  let prompt := clean_markdown user_message in
  let sent := stored_history (db w) chat_id ++ [user_turn user_message] in
  (forall pos : nat, op_fails env pos = false) ->
  llm_response env (n + 4) prompt sent = Output (Some raw) ->
  handle_message env chat_id user_message w =
    (Ok tt,
     {| db := <[chat_id := BlobJson (sent ++ [assistant_turn raw])]> (db w);
        trace := trace w ++ exchanged n chat_id prompt sent raw |}).
Proof.
  intros n prompt sent Hok Hreply.
  rewrite handle_message_loaded by apply Hok.
  rewrite Hok. cbn [negb]. fold sent prompt.
  rewrite (exchange_delivered env chat_id sent prompt raw).
  - unfold try_except, bind. rewrite save_context_run. cbn zeta.
    rewrite !Hok. rewrite message_delete_run, Hok.
    rewrite trace_extend_length. cbn [length]. fold n.
    unfold extend, exchanged, asked, loaded, saved_as. cbn [db trace negb].
    rewrite <- !app_assoc. reflexivity.
  - intros k _. apply Hok.
  - rewrite trace_extend_length. cbn [length]. fold n.
    now replace (n + 3 + 1)%nat with (n + 4)%nat by lia.
Qed.

(** X13: two messages of one chat, handled one after the other with
    nothing raising: the second call of the LLM receives the stored
    history, the first user turn, the first formatted reply and the
    second user turn, in this order, and the row ends with the four new
    turns. *)
Theorem two_messages_share_the_history
    (env : Env) (chat_id : chat_id_t) (first second raw1 raw2 : text) (w : World)
    (Hok : forall n : nat, op_fails env n = false) :
  let n := length (trace w) in
  let h := stored_history (db w) chat_id in
  let sent1 := h ++ [user_turn first] in
  let sent2 := h ++ [user_turn first; assistant_turn raw1; user_turn second] in
  let n2 := (n + length (exchanged n chat_id (clean_markdown first) sent1 raw1))%nat in
  (forall pos : nat,
     llm_response env pos (clean_markdown first) sent1 = Output (Some raw1)) ->
  (forall pos : nat,
     llm_response env pos (clean_markdown second) sent2 = Output (Some raw2)) ->
  two_messages env chat_id first second w =
    (Ok tt,
     {| db := <[chat_id := BlobJson (sent2 ++ [assistant_turn raw2])]> (db w);
        trace := trace w
          ++ exchanged n chat_id (clean_markdown first) sent1 raw1
          ++ exchanged n2 chat_id (clean_markdown second) sent2 raw2 |}).
Proof.
  intros n h sent1 sent2 n2 Hreply1 Hreply2.
  unfold two_messages, bind.
  rewrite (handle_message_exchanged env chat_id first raw1 w Hok (Hreply1 _)).
  fold n h sent1.
  rewrite (handle_message_exchanged env chat_id second raw2).
  - cbn [db trace]. rewrite stored_history_insert, insert_insert_eq.
    rewrite length_app. fold n n2.
    replace ((sent1 ++ [assistant_turn raw1]) ++ [user_turn second]) with sent2
      by (subst sent1 sent2; now rewrite <- !app_assoc).
    now rewrite <- app_assoc.
  - exact Hok.
  - cbn [db trace]. rewrite stored_history_insert.
    replace ((sent1 ++ [assistant_turn raw1]) ++ [user_turn second]) with sent2
      by (subst sent1 sent2; now rewrite <- !app_assoc).
    apply Hreply2.
Qed.

Lemma two_messages_share_the_history_witness :
  db (snd (two_messages (env_reliable (Output (Some (str "Hi")))) 7
             (str "a") (str "b") world0)) !! 7 =
    Some (BlobJson [ {| role := user; content := str "a" |};
                     {| role := assistant; content := str "Hi" ++ [nl] |};
                     {| role := user; content := str "b" |};
                     {| role := assistant; content := str "Hi" ++ [nl] |} ]).
Proof.
  rewrite (two_messages_share_the_history
             (env_reliable (Output (Some (str "Hi")))) 7
             (str "a") (str "b") (str "Hi") (str "Hi") world0
             (fun n => eq_refl) (fun pos => eq_refl) (fun pos => eq_refl)).
  reflexivity.
Defined.

(** Positions in a run, as sums over the operations before them. *)
Ltac positions :=
  repeat first [rewrite trace_extend_length | rewrite length_app | rewrite length_map];
  cbn [length].

(** X14: when the query of the load fails and everything else succeeds,
    the exchange goes on with an empty history, and the save replaces the
    row of the chat by the two new turns alone: the history stored before
    is overwritten. *)
Theorem handle_message_after_failed_query_overwrites_history
    (env : Env) (chat_id : chat_id_t) (user_message raw : text) (w : World) :
  let n := length (trace w) in
  let prompt := clean_markdown user_message in
  let formatted := clean_markdown (format_list_as_markdown raw) in
  let saved := [user_turn user_message; assistant_turn raw] in
  op_fails env (n + 1) = true ->
  (forall k : nat, k <> (n + 1)%nat -> op_fails env k = false) ->
  llm_response env (n + 4) prompt [user_turn user_message] = Output (Some raw) ->
  handle_message env chat_id user_message w =
    (Ok tt,
     {| db := <[chat_id := BlobJson saved]> (db w);
        trace := trace w
          ++ [done_ok OpConnect; failed (OpFetchrow chat_id); done_ok OpClose;
              delivered typing_text;
              done_ok (OpCall prompt [user_turn user_message])]
          ++ List.map delivered (chunks formatted 4096)
          ++ saved_as chat_id saved
          ++ [done_ok (OpDeleteMessage (n + 3))] |}).
Proof.
  intros n prompt formatted saved Hquery Hok Hreply.
  rewrite handle_message_loaded by (apply Hok; lia).
  fold n. rewrite Hquery. cbn [negb app]. fold prompt.
  rewrite (exchange_delivered env chat_id [user_turn user_message] prompt raw).
  - unfold try_except, bind. rewrite save_context_run. cbn zeta.
    positions. fold n.
    rewrite !Hok by lia.
    rewrite message_delete_run. cbn [trace]. positions. fold n.
    rewrite Hok by lia.
    unfold extend, saved_as. cbn [db trace negb].
    rewrite <- !app_assoc. reflexivity.
  - intros k _. positions. fold n. apply Hok. lia.
  - positions. fold n.
    now replace (n + 3 + 1)%nat with (n + 4)%nat by lia.
Qed.

Lemma handle_message_after_failed_query_overwrites_history_witness :
  let w := {| db := <[7 := BlobJson [ {| role := user; content := str "old" |} ]]> ∅;
              trace := [] |} in
  db (snd (handle_message (env_failing_at 1 (Output (Some (str "Hi")))) 7
             (str "Hello") w)) !! 7 =
    Some (BlobJson [ {| role := user; content := str "Hello" |};
                     {| role := assistant; content := str "Hi" ++ [nl] |} ]).
Proof.
  intros w.
  rewrite (handle_message_after_failed_query_overwrites_history
             (env_failing_at 1 (Output (Some (str "Hi")))) 7
             (str "Hello") (str "Hi") w eq_refl).
  - reflexivity.
  - intros k Hk. apply Nat.eqb_neq. exact Hk.
  - reflexivity.
Defined.

(** X15: when the INSERT of the save raises and everything else
    succeeds, [save_context] swallows the failure: the reply has been
    delivered, the indicator is deleted and the handler ends normally,
    without any message about it, while the table is left without the
    new turns. *)
Theorem handle_message_swallows_a_failed_save
    (env : Env) (chat_id : chat_id_t) (user_message raw : text) (w : World) :
  let n := length (trace w) in
  let prompt := clean_markdown user_message in
  let sent := stored_history (db w) chat_id ++ [user_turn user_message] in
  let formatted := clean_markdown (format_list_as_markdown raw) in
  let saved := sent ++ [assistant_turn raw] in
  let insert_at := (n + 6 + length (chunks formatted 4096))%nat in
  op_fails env insert_at = true ->
  (forall k : nat, k <> insert_at -> op_fails env k = false) ->
  llm_response env (n + 4) prompt sent = Output (Some raw) ->
  handle_message env chat_id user_message w =
    (Ok tt,
     {| db := db w;
        trace := trace w
          ++ asked chat_id prompt sent
          ++ List.map delivered (chunks formatted 4096)
          ++ [done_ok OpConnect; failed (OpUpsert chat_id (BlobJson saved));
              done_ok OpClose; done_ok (OpDeleteMessage (n + 3))] |}).
Proof.
  intros n prompt sent formatted saved insert_at Hinsert Hok Hreply.
  rewrite handle_message_loaded by (apply Hok; subst insert_at; lia).
  fold n. rewrite (Hok (n + 1)%nat) by (subst insert_at; lia).
  cbn [negb]. fold sent prompt.
  rewrite (exchange_delivered env chat_id sent prompt raw).
  - unfold try_except, bind. rewrite save_context_run. cbn zeta.
    positions. fold n formatted.
    replace (n + 3 + (2 + length (chunks formatted 4096)) + 1)%nat
      with insert_at by (subst insert_at; lia).
    rewrite Hinsert.
    rewrite !Hok by (subst insert_at; lia).
    rewrite message_delete_run. cbn [trace]. positions. fold n formatted.
    rewrite Hok by (subst insert_at; lia).
    unfold extend, asked, loaded. cbn [db trace negb].
    rewrite <- !app_assoc. reflexivity.
  - intros k Hk. positions. fold n. apply Hok. fold formatted in Hk.
    subst insert_at. lia.
  - positions. fold n.
    now replace (n + 3 + 1)%nat with (n + 4)%nat by lia.
Qed.

Lemma handle_message_swallows_a_failed_save_witness :
  handle_message (env_failing_at 7 (Output (Some (str "Hi")))) 7 (str "Hello") world0 =
    (Ok tt,
     {| db := ∅;
        trace :=
          asked 7 (str "Hello") [ {| role := user; content := str "Hello" |} ]
          ++ [delivered (str "Hi" ++ [nl]);
              done_ok OpConnect;
              failed (OpUpsert 7
                (BlobJson [ {| role := user; content := str "Hello" |};
                            {| role := assistant; content := str "Hi" ++ [nl] |} ]));
              done_ok OpClose; done_ok (OpDeleteMessage 3)] |}).
Proof.
  refine (handle_message_swallows_a_failed_save
            (env_failing_at 7 (Output (Some (str "Hi")))) 7
            (str "Hello") (str "Hi") world0 eq_refl _ eq_refl).
  intros k Hk. apply Nat.eqb_neq. exact Hk.
Defined.

(** X16: when the LLM returns a value with the key ['output'] whose text
    cannot be read, or when the call itself raises, the handler sends
    the failure message, not the no-response message; nothing is
    delivered or saved, and the indicator, already sent, is not
    deleted. *)
Theorem handle_message_on_a_raising_exchange
    (env : Env) (chat_id : chat_id_t) (user_message : text) (w : World) :
  let n := length (trace w) in
  let prompt := clean_markdown user_message in
  let sent := stored_history (db w) chat_id ++ [user_turn user_message] in
  (forall k : nat, (k < 4)%nat -> op_fails env (n + k) = false) ->
  op_fails env (n + 4) = true
  \/ (op_fails env (n + 4) = false
      /\ llm_response env (n + 4) prompt sent = Output None) ->
  exists (r : Outcome unit) (told : bool),
    handle_message env chat_id user_message w =
      (r,
       extend w
         (loaded chat_id
          ++ [delivered typing_text;
              {| ev_op := OpCall prompt sent;
                 ev_ok := negb (op_fails env (n + 4)) |};
              {| ev_op := OpReplyText failure_text; ev_ok := told |}])).
Proof.
  intros n prompt sent Hok Hraises.
  pose proof (Hok 0%nat ltac:(lia)) as H0. rewrite Nat.add_0_r in H0.
  pose proof (Hok 1%nat ltac:(lia)) as H1.
  pose proof (Hok 2%nat ltac:(lia)) as H2.
  pose proof (Hok 3%nat ltac:(lia)) as H3.
  rewrite handle_message_loaded by assumption.
  fold n. rewrite H1. cbn [negb]. fold sent prompt.
  unfold try_except. rewrite exchange_run. cbn zeta.
  positions. fold n. rewrite H3.
  replace (n + 3 + 1)%nat with (n + 4)%nat by lia.
  destruct Hraises as [Hcall|[Hcall Hnone]]; rewrite Hcall.
  - rewrite report_failure_run, !extend_extend.
    case_op; eexists _, _; reflexivity.
  - rewrite Hnone, report_failure_run, !extend_extend.
    case_op; eexists _, _; reflexivity.
Qed.

Lemma handle_message_on_a_raising_exchange_witness :
  exists (r : Outcome unit) (told : bool),
    handle_message (env_reliable (Output None)) 7 (str "Hello") world0 =
      (r,
       extend world0
         (loaded 7
          ++ [delivered typing_text;
              done_ok (OpCall (str "Hello") [ {| role := user; content := str "Hello" |} ]);
              {| ev_op := OpReplyText failure_text; ev_ok := told |}])).
Proof.
  apply (handle_message_on_a_raising_exchange
           (env_reliable (Output None)) 7 (str "Hello") world0).
  - intros k _. reflexivity.
  - right. split; reflexivity.
Defined.

(** ** Calls of the LLM *)

Lemma calls_app (a b : list Event) : calls (a ++ b) = (calls a + calls b)%nat.
Proof. unfold calls. now rewrite List.filter_app, length_app. Qed.

Lemma calls_at_most_refl (k : nat) (w : World) : calls_at_most k w w.
Proof. exists []. rewrite app_nil_r. split; [reflexivity|]. cbn. lia. Qed.

Lemma calls_at_most_add (j k : nat) (w1 w2 w3 : World) :
  calls_at_most j w1 w2 -> calls_at_most k w2 w3 -> calls_at_most (j + k) w1 w3.
Proof.
  intros (evs1 & Ht1 & Hc1) (evs2 & Ht2 & Hc2).
  exists (evs1 ++ evs2). split.
  - now rewrite Ht2, Ht1, app_assoc.
  - rewrite calls_app. lia.
Qed.

Lemma calls_at_most_extend (k : nat) (w : World) (evs : list Event) :
  (calls evs <= k)%nat -> calls_at_most k w (extend w evs).
Proof. intros Hevs. now exists evs. Qed.

Section Calls.

Variable env : Env.

Lemma quiet_trans (w1 w2 w3 : World) :
  calls_at_most 0 w1 w2 -> calls_at_most 0 w2 w3 -> calls_at_most 0 w1 w3.
Proof. apply (calls_at_most_add 0 0). Qed.

Lemma reply_text_quiet (t : text) : preserves (calls_at_most 0) (reply_text env t).
Proof.
  intros w w' r. rewrite reply_text_run.
  case_op; intros Hrun; injection Hrun as _ <-;
    apply calls_at_most_extend; cbn; lia.
Qed.

Lemma message_delete_quiet (m : nat) :
  preserves (calls_at_most 0) (message_delete env m).
Proof.
  intros w w' r. rewrite message_delete_run.
  case_op; intros Hrun; injection Hrun as _ <-;
    apply calls_at_most_extend; cbn; lia.
Qed.

Lemma get_context_quiet (chat_id : chat_id_t) :
  preserves (calls_at_most 0) (get_context env chat_id).
Proof.
  intros w w' r. rewrite get_context_run. cbn zeta.
  repeat case_op; intros Hrun; injection Hrun as _ <-;
    apply calls_at_most_extend; cbn; lia.
Qed.

Lemma save_context_quiet (chat_id : chat_id_t) (h : History) :
  preserves (calls_at_most 0) (save_context env chat_id h).
Proof.
  intros w w' r. rewrite save_context_run. cbn zeta.
  case_op; [intros Hrun; injection Hrun as _ <-;
            apply calls_at_most_extend; cbn; lia|].
  destruct (op_fails env (length (trace w) + 1));
    case_op; intros Hrun; injection Hrun as _ <-;
    eexists; (split; [reflexivity|]); cbn; lia.
Qed.

Lemma application_call_once (p : text) (ms : list Turn) :
  preserves (calls_at_most 1) (application_call env p ms).
Proof.
  intros w w' r. rewrite application_call_run.
  case_op; intros Hrun; injection Hrun as _ <-;
    apply calls_at_most_extend; cbn; lia.
Qed.

Lemma exchange_calls_once (chat_id : chat_id_t) (context_data : History)
    (prompt : text) :
  preserves (calls_at_most 1) (exchange env chat_id context_data prompt).
Proof.
  intros w w' r. unfold exchange. unfold bind at 1.
  destruct (reply_text env typing_text w) as [[typing_message|e] w1] eqn:Htyping;
    apply reply_text_quiet in Htyping;
    [|intros Hrun; injection Hrun as _ <-;
      apply (calls_at_most_add 0 1 w w1 w1 Htyping), calls_at_most_refl].
  cbn zeta. unfold bind at 1.
  destruct (application_call env prompt _ w1) as [[response|e] w2] eqn:Hcall;
    apply application_call_once in Hcall;
    [|intros Hrun; injection Hrun as _ <-;
      exact (calls_at_most_add 0 1 w w1 w2 Htyping Hcall)].
  intros Hrun.
  assert (Hrest : calls_at_most 0 w2 w').
  { revert Hrun. apply preserves_bind; [exact quiet_trans| |].
    - destruct response as [| |[raw|]];
        [apply report_no_response_preserves
        |apply report_no_response_preserves
        |apply respond_preserves
        |apply preserves_raise];
        first [exact quiet_trans
              |apply calls_at_most_refl
              |intros t _; apply reply_text_quiet
              |apply save_context_quiet].
    - intros _. apply message_delete_quiet. }
  exact (calls_at_most_add 0 1 w w1 w'
           Htyping (calls_at_most_add 1 0 w1 w2 w' Hcall Hrest)).
Qed.

End Calls.

(** X17: whatever fails and whatever it answers, the LLM is called at
    most once for one message. *)
Theorem handle_message_calls_the_llm_at_most_once
    (env : Env) (chat_id : chat_id_t) (user_message : text)
    (w w' : World) (r : Outcome unit)
    (Hrun : handle_message env chat_id user_message w = (r, w')) :
  exists evs : list Event,
    trace w' = trace w ++ evs /\ (calls evs <= 1)%nat.
Proof.
  change (calls_at_most 1 w w').
  rewrite handle_message_blocks in Hrun.
  destruct (get_context env chat_id w) as [[h|e] w1] eqn:Hload;
    apply get_context_quiet in Hload;
    [|injection Hrun as _ <-;
      apply (calls_at_most_add 0 1 w w1 w1 Hload), calls_at_most_refl].
  unfold try_except in Hrun.
  destruct (exchange env chat_id _ _ w1) as [[[]|e] w2] eqn:Hexchange;
    apply exchange_calls_once in Hexchange.
  - injection Hrun as _ <-.
    exact (calls_at_most_add 0 1 w w1 w2 Hload Hexchange).
  - assert (Hreport : calls_at_most 0 w2 w').
    { revert Hrun. apply report_failure_preserves;
        first [exact quiet_trans
              |apply calls_at_most_refl
              |intros t _; apply reply_text_quiet]. }
    exact (calls_at_most_add 0 1 w w1 w' Hload
             (calls_at_most_add 1 0 w1 w2 w' Hexchange Hreport)).
Qed.

Lemma handle_message_calls_the_llm_at_most_once_witness :
  exists evs : list Event,
    trace (snd (handle_message (env_failing_at 5 (Output (Some (str "- a")))) 7
                  (str "Hello") world0)) = trace world0 ++ evs
    /\ (calls evs <= 1)%nat.
Proof.
  exact (handle_message_calls_the_llm_at_most_once
           (env_failing_at 5 (Output (Some (str "- a")))) 7 (str "Hello") world0
           (snd (handle_message (env_failing_at 5 (Output (Some (str "- a")))) 7
                   (str "Hello") world0))
           (fst (handle_message (env_failing_at 5 (Output (Some (str "- a")))) 7
                   (str "Hello") world0))
           eq_refl).
Defined.



(** ** Clearing the history *)

Section ClearHistoryProperties.

Variable fails : nat -> bool.

(** Every run of [clear_history]. *)
Lemma clear_history_run (chat_id : chat_id_t) (w : ClearHistory.World) :
  ClearHistory.clear_history fails chat_id w =
    let n := length (ClearHistory.trace w) in
    if fails n
    then (ClearHistory.Raise (ClearHistory.CollaboratorError ClearHistory.OpConnect),
          {| ClearHistory.db := ClearHistory.db w; ClearHistory.trace := ClearHistory.trace w ++ [ClearHistory.failed ClearHistory.OpConnect] |})
    else if fails (n + 1)
    then
      (if fails (n + 3) then ClearHistory.Raise (ClearHistory.CollaboratorError ClearHistory.OpClose)
       else if fails (n + 2)
            then ClearHistory.Raise (ClearHistory.CollaboratorError (ClearHistory.OpReplyText ClearHistory.not_cleared_text))
            else ClearHistory.Ok tt,
       {| ClearHistory.db := ClearHistory.db w;
          ClearHistory.trace := ClearHistory.trace w ++
            [ClearHistory.done_ok ClearHistory.OpConnect; ClearHistory.failed (ClearHistory.OpDeleteRow chat_id);
             {| ClearHistory.ev_op := ClearHistory.OpReplyText ClearHistory.not_cleared_text;
                ClearHistory.ev_ok := negb (fails (n + 2)) |};
             {| ClearHistory.ev_op := ClearHistory.OpClose; ClearHistory.ev_ok := negb (fails (n + 3)) |}] |})
    else if fails (n + 2)
    then
      (if fails (n + 4) then ClearHistory.Raise (ClearHistory.CollaboratorError ClearHistory.OpClose)
       else if fails (n + 3)
            then ClearHistory.Raise (ClearHistory.CollaboratorError (ClearHistory.OpReplyText ClearHistory.not_cleared_text))
            else ClearHistory.Ok tt,
       {| ClearHistory.db := delete chat_id (ClearHistory.db w);
          ClearHistory.trace := ClearHistory.trace w ++
            [ClearHistory.done_ok ClearHistory.OpConnect; ClearHistory.done_ok (ClearHistory.OpDeleteRow chat_id);
             ClearHistory.failed (ClearHistory.OpReplyText ClearHistory.cleared_text);
             {| ClearHistory.ev_op := ClearHistory.OpReplyText ClearHistory.not_cleared_text;
                ClearHistory.ev_ok := negb (fails (n + 3)) |};
             {| ClearHistory.ev_op := ClearHistory.OpClose; ClearHistory.ev_ok := negb (fails (n + 4)) |}] |})
    else
      (if fails (n + 3) then ClearHistory.Raise (ClearHistory.CollaboratorError ClearHistory.OpClose) else ClearHistory.Ok tt,
       {| ClearHistory.db := delete chat_id (ClearHistory.db w);
          ClearHistory.trace := ClearHistory.trace w ++
            [ClearHistory.done_ok ClearHistory.OpConnect; ClearHistory.done_ok (ClearHistory.OpDeleteRow chat_id);
             ClearHistory.done_ok (ClearHistory.OpReplyText ClearHistory.cleared_text);
             {| ClearHistory.ev_op := ClearHistory.OpClose; ClearHistory.ev_ok := negb (fails (n + 3)) |}] |}).
Proof.
  unfold ClearHistory.clear_history, ClearHistory.get_db_connection, ClearHistory.conn_execute_delete, ClearHistory.try_finally,
    ClearHistory.try_except, ClearHistory.bind, ClearHistory.perform, ClearHistory.ret, ClearHistory.raise.
  cbn zeta.
  destruct (fails (length (ClearHistory.trace w))); [reflexivity|].
  cbn [ClearHistory.trace ClearHistory.db]. rewrite !length_app. cbn [length].
  destruct (fails (length (ClearHistory.trace w) + 1)); cbn [ClearHistory.trace ClearHistory.db].
  - rewrite !length_app. cbn [length].
    replace (length (ClearHistory.trace w) + 1 + 1)%nat with (length (ClearHistory.trace w) + 2)%nat by lia.
    destruct (fails (length (ClearHistory.trace w) + 2)); cbn [ClearHistory.trace ClearHistory.db];
      rewrite !length_app; cbn [length];
      replace (length (ClearHistory.trace w) + 1 + 1 + 1)%nat with (length (ClearHistory.trace w) + 3)%nat by lia;
      destruct (fails (length (ClearHistory.trace w) + 3)); cbn [negb];
      now rewrite <- !app_assoc.
  - rewrite !length_app. cbn [length].
    replace (length (ClearHistory.trace w) + 1 + 1)%nat with (length (ClearHistory.trace w) + 2)%nat by lia.
    destruct (fails (length (ClearHistory.trace w) + 2)); cbn [ClearHistory.trace ClearHistory.db].
    + rewrite !length_app. cbn [length].
      replace (length (ClearHistory.trace w) + 1 + 1 + 1)%nat with (length (ClearHistory.trace w) + 3)%nat by lia.
      destruct (fails (length (ClearHistory.trace w) + 3)); cbn [ClearHistory.trace ClearHistory.db];
        rewrite !length_app; cbn [length];
        replace (length (ClearHistory.trace w) + 1 + 1 + 1 + 1)%nat
          with (length (ClearHistory.trace w) + 4)%nat by lia;
        destruct (fails (length (ClearHistory.trace w) + 4)); cbn [negb];
        now rewrite <- !app_assoc.
    + rewrite !length_app. cbn [length].
      replace (length (ClearHistory.trace w) + 1 + 1 + 1)%nat with (length (ClearHistory.trace w) + 3)%nat by lia.
      destruct (fails (length (ClearHistory.trace w) + 3)); cbn [negb];
        now rewrite <- !app_assoc.
Qed.

(** X19: when the store and the transport are reachable,
    [clear_history] removes the row of the chat and confirms it; the
    rows of the other chats stay, a chat without row is cleared without
    error and leaves the table as it was, and a later [get_context] of
    the chat returns the empty history. *)
Theorem clear_history_removes_the_row
    (chat_id : chat_id_t) (w : ClearHistory.World)
    (Hok : forall k : nat, (k < 4)%nat -> fails (length (ClearHistory.trace w) + k) = false) :
  ClearHistory.clear_history fails chat_id w =
    (ClearHistory.Ok tt,
     {| ClearHistory.db := delete chat_id (ClearHistory.db w);
        ClearHistory.trace := ClearHistory.trace w ++
          [ClearHistory.done_ok ClearHistory.OpConnect; ClearHistory.done_ok (ClearHistory.OpDeleteRow chat_id);
           ClearHistory.done_ok (ClearHistory.OpReplyText ClearHistory.cleared_text); ClearHistory.done_ok ClearHistory.OpClose] |})
  /\ (forall c : chat_id_t, c <> chat_id -> delete chat_id (ClearHistory.db w) !! c = ClearHistory.db w !! c)
  /\ (ClearHistory.db w !! chat_id = None -> delete chat_id (ClearHistory.db w) = ClearHistory.db w)
  /\ (forall (env : Env) (w0 : World),
        db w0 = delete chat_id (ClearHistory.db w) ->
        op_fails env (length (trace w0)) = false ->
        op_fails env (length (trace w0) + 2) = false ->
        fst (get_context env chat_id w0) = Ok []).
Proof.
  pose proof (Hok 0%nat ltac:(lia)) as H0. rewrite Nat.add_0_r in H0.
  pose proof (Hok 1%nat ltac:(lia)) as H1.
  pose proof (Hok 2%nat ltac:(lia)) as H2.
  pose proof (Hok 3%nat ltac:(lia)) as H3.
  split; [|split; [|split]].
  - rewrite clear_history_run. cbn zeta. now rewrite H0, H1, H2, H3.
  - intros c Hc. now apply lookup_delete_ne.
  - intros Hnone. now apply delete_id.
  - intros env w0 Hdb Hopen Hclose.
    rewrite get_context_run. cbn zeta. rewrite Hopen, Hclose. cbn [fst].
    unfold stored_history. rewrite Hdb, lookup_delete_eq.
    now destruct (op_fails env (length (trace w0) + 1)).
Qed.

(** X20: whatever fails, [clear_history] leaves the rows of the other
    chats as they were; it confirms the deletion only after the row is
    gone; when the DELETE or the connection fails the table is
    unchanged; and once the connection is open, the last operation of
    the run is the attempt to close it. *)
Theorem clear_history_is_safe
    (chat_id : chat_id_t) (w w' : ClearHistory.World)
    (r : ClearHistory.Outcome unit)
    (Hrun : ClearHistory.clear_history fails chat_id w = (r, w')) :
  (forall c : chat_id_t,
     c <> chat_id -> ClearHistory.db w' !! c = ClearHistory.db w !! c)
  /\ exists evs : list ClearHistory.Event,
       ClearHistory.trace w' = ClearHistory.trace w ++ evs
       /\ (In (ClearHistory.done_ok (ClearHistory.OpReplyText ClearHistory.cleared_text)) evs ->
           ClearHistory.db w' = delete chat_id (ClearHistory.db w))
       /\ (~ In (ClearHistory.done_ok (ClearHistory.OpDeleteRow chat_id)) evs ->
           ClearHistory.db w' = ClearHistory.db w)
       /\ (evs = [ClearHistory.failed ClearHistory.OpConnect]
           \/ exists (middle : list ClearHistory.Event) (closed : bool),
                evs = ClearHistory.done_ok ClearHistory.OpConnect :: middle
                      ++ [{| ClearHistory.ev_op := ClearHistory.OpClose;
                             ClearHistory.ev_ok := closed |}]).
Proof.
  rewrite clear_history_run in Hrun. cbn zeta in Hrun.
  destruct (fails (length (ClearHistory.trace w))).
  { injection Hrun as _ <-. cbn [ClearHistory.db ClearHistory.trace].
    split; [reflexivity|]. eexists. split; [reflexivity|].
    split; [|split; [reflexivity|now left]].
    intros [Hin|[]]. discriminate Hin. }
  destruct (fails (length (ClearHistory.trace w) + 1)).
  { injection Hrun as _ <-. cbn [ClearHistory.db ClearHistory.trace].
    split; [reflexivity|]. eexists. split; [reflexivity|].
    split; [|split; [reflexivity|]].
    - intros Hin. cbn [In] in Hin.
      exfalso.
      destruct Hin as [Hin|[Hin|[Hin|[Hin|[]]]]]; discriminate Hin.
    - right. eexists [_; _], _. reflexivity. }
  destruct (fails (length (ClearHistory.trace w) + 2)).
  { injection Hrun as _ <-. cbn [ClearHistory.db ClearHistory.trace].
    split; [intros c Hc; now apply lookup_delete_ne|].
    eexists. split; [reflexivity|].
    split; [reflexivity|split].
    - intros Hnot. exfalso. apply Hnot. right. now left.
    - right. eexists [_; _; _], _. reflexivity. }
  injection Hrun as _ <-. cbn [ClearHistory.db ClearHistory.trace].
  split; [intros c Hc; now apply lookup_delete_ne|].
  eexists. split; [reflexivity|].
  split; [reflexivity|split].
  - intros Hnot. exfalso. apply Hnot. right. now left.
  - right. eexists [_; _], _. reflexivity.
Qed.

(** X21: when the DELETE succeeds but the confirmation cannot be sent,
    the [except] branch sends the message that the deletion failed,
    although the row is gone. *)
Theorem clear_history_reports_failure_after_a_deletion
    (chat_id : chat_id_t) (w : ClearHistory.World)
    (Hconfirm : fails (length (ClearHistory.trace w) + 2) = true)
    (Hok : forall k : nat, k <> 2%nat -> fails (length (ClearHistory.trace w) + k) = false) :
  ClearHistory.clear_history fails chat_id w =
    (ClearHistory.Ok tt,
     {| ClearHistory.db := delete chat_id (ClearHistory.db w);
        ClearHistory.trace := ClearHistory.trace w ++
          [ClearHistory.done_ok ClearHistory.OpConnect;
           ClearHistory.done_ok (ClearHistory.OpDeleteRow chat_id);
           ClearHistory.failed (ClearHistory.OpReplyText ClearHistory.cleared_text);
           ClearHistory.done_ok (ClearHistory.OpReplyText ClearHistory.not_cleared_text);
           ClearHistory.done_ok ClearHistory.OpClose] |}).
Proof.
  pose proof (Hok 0%nat ltac:(lia)) as H0. rewrite Nat.add_0_r in H0.
  pose proof (Hok 1%nat ltac:(lia)) as H1.
  pose proof (Hok 3%nat ltac:(lia)) as H3.
  pose proof (Hok 4%nat ltac:(lia)) as H4.
  rewrite clear_history_run. cbn zeta.
  now rewrite H0, H1, Hconfirm, H3, H4.
Qed.

End ClearHistoryProperties.

Lemma clear_history_removes_the_row_witness :
  ClearHistory.db
    (snd (ClearHistory.clear_history (fun _ => false) 7
            {| ClearHistory.db :=
                 <[7 := BlobJson [ {| role := user; content := str "Hello" |} ]]> ∅;
               ClearHistory.trace := [] |})) !! 7 = None.
Proof.
  rewrite (proj1 (clear_history_removes_the_row (fun _ => false) 7
                    {| ClearHistory.db :=
                         <[7 := BlobJson [ {| role := user; content := str "Hello" |} ]]> ∅;
                       ClearHistory.trace := [] |}
                    (fun k _ => eq_refl))).
  reflexivity.
Defined.

Lemma clear_history_is_safe_witness :
  ClearHistory.db
    (snd (ClearHistory.clear_history (fun n => Nat.eqb n 1) 7
            {| ClearHistory.db := <[8 := BlobNull]> ∅; ClearHistory.trace := [] |}))
    !! 8 = Some BlobNull.
Proof.
  destruct (clear_history_is_safe (fun n => Nat.eqb n 1) 7
              {| ClearHistory.db := <[8 := BlobNull]> ∅; ClearHistory.trace := [] |}
              (snd (ClearHistory.clear_history (fun n => Nat.eqb n 1) 7
                      {| ClearHistory.db := <[8 := BlobNull]> ∅;
                         ClearHistory.trace := [] |}))
              (fst (ClearHistory.clear_history (fun n => Nat.eqb n 1) 7
                      {| ClearHistory.db := <[8 := BlobNull]> ∅;
                         ClearHistory.trace := [] |}))
              eq_refl) as [Hrows _].
  etransitivity; [apply (Hrows 8); lia | reflexivity].
Defined.

Lemma clear_history_reports_failure_after_a_deletion_witness :
  fst (ClearHistory.clear_history (fun n => Nat.eqb n 2) 7
         {| ClearHistory.db := <[7 := BlobNull]> ∅; ClearHistory.trace := [] |}) =
    ClearHistory.Ok tt
  /\ ClearHistory.db
       (snd (ClearHistory.clear_history (fun n => Nat.eqb n 2) 7
               {| ClearHistory.db := <[7 := BlobNull]> ∅; ClearHistory.trace := [] |}))
       !! 7 = None.
Proof.
  rewrite (clear_history_reports_failure_after_a_deletion (fun n => Nat.eqb n 2) 7
             {| ClearHistory.db := <[7 := BlobNull]> ∅; ClearHistory.trace := [] |}
             eq_refl).
  - split; reflexivity.
  - intros k Hk. apply Nat.eqb_neq. exact Hk.
Defined.

(** ** The start of the process *)

Lemma unset_false (v : option string) :
  Startup.unset v = false <-> exists (a : ascii) (s : string), v = Some (String a s).
Proof.
  destruct v as [[|a s]|]; simpl; split; try discriminate; eauto.
  - intros (a & s & H). discriminate H.
  - intros (a & s & H). discriminate H.
Qed.

(** X22: the process starts exactly when the seven text variables are
    set and not empty and POSTGRES_PORT is set, is an integer for [int]
    and is not zero.  When POSTGRES_PORT is not set at all, the process
    ends with the TypeError of [int(None)], whatever the other variables
    are; when a text variable is missing and the port is an integer, it
    exits with status 1. *)
Theorem module_start_requires_every_variable
    (getenv : string -> option string) (py_int : string -> option Z) (port : Z) :
  (Startup.module_start getenv py_int = Startup.Running port <->
     Forall (fun name => Startup.unset (getenv name) = false) Startup.required
     /\ exists port_text : string,
          getenv "POSTGRES_PORT"%string = Some port_text
          /\ py_int port_text = Some port /\ port <> 0)
  /\ (getenv "POSTGRES_PORT"%string = None ->
      Startup.module_start getenv py_int = Startup.TypeError)
  /\ (forall port_text : string,
        getenv "POSTGRES_PORT"%string = Some port_text ->
        py_int port_text = Some port ->
        Exists (fun name => Startup.unset (getenv name) = true) Startup.required ->
        Startup.module_start getenv py_int = Startup.Exit 1).
Proof.
  unfold Startup.module_start, Startup.required. cbn zeta.
  split; [|split].
  - destruct (getenv "POSTGRES_PORT"%string) as [port_text|].
    2:{ split; [discriminate|]. intros (_ & s & Hs & _). discriminate Hs. }
    destruct (py_int port_text) as [p|] eqn:Hint.
    2:{ split; [discriminate|]. intros (_ & s & Hs & Hp & _). congruence. }
    rewrite !List.Forall_cons_iff.
    destruct (Z.eqb_spec p 0) as [Hzero|Hnonzero];
    destruct (Startup.unset (getenv "TELEGRAM_BOT_TOKEN"%string));
    destruct (Startup.unset (getenv "QWEN_APP_ID"%string));
    destruct (Startup.unset (getenv "QWEN_API_KEY"%string));
    destruct (Startup.unset (getenv "POSTGRES_USER"%string));
    destruct (Startup.unset (getenv "POSTGRES_PASSWORD"%string));
    destruct (Startup.unset (getenv "POSTGRES_HOST"%string));
    destruct (Startup.unset (getenv "POSTGRES_DB"%string));
    cbn [orb];
    first
      [ split;
        [ discriminate
        | intros [Hall Hport]; exfalso;
          first [ intuition discriminate
                | destruct Hport as (s & Hs & Hp & Hnz);
                  injection Hs as <-; congruence ] ]
      | split;
        [ intros Hrun; injection Hrun as <-;
          split; [repeat split; constructor | eauto]
        | intros (_ & s & Hs & Hp & _); injection Hs as <-; congruence ] ].
  - now intros ->.
  - intros port_text -> -> Hmissing.
    rewrite !List.Exists_cons, List.Exists_nil in Hmissing.
    destruct (Startup.unset (getenv "TELEGRAM_BOT_TOKEN"%string));
    destruct (Startup.unset (getenv "QWEN_APP_ID"%string));
    destruct (Startup.unset (getenv "QWEN_API_KEY"%string));
    destruct (Startup.unset (getenv "POSTGRES_USER"%string));
    destruct (Startup.unset (getenv "POSTGRES_PASSWORD"%string));
    destruct (Startup.unset (getenv "POSTGRES_HOST"%string));
    destruct (Startup.unset (getenv "POSTGRES_DB"%string));
    cbn [orb]; try reflexivity.
    + now rewrite !orb_true_r.
    + exfalso. intuition discriminate.
Qed.

Lemma module_start_requires_every_variable_witness :
  Startup.module_start (fun name => if String.eqb name "POSTGRES_PORT" then None else Some name)
    (fun _ => Some 5432) = Startup.TypeError.
Proof.
  exact (proj1 (proj2 (module_start_requires_every_variable
                  (fun name => if String.eqb name "POSTGRES_PORT" then None else Some name)
                  (fun _ => Some 5432) 5432)) eq_refl).
Defined.

(** ** The two store functions on every run *)

(** X23: whatever fails, [get_context] leaves the table as it was, and
    what it returns is the stored history of the chat or the empty
    history. *)
Theorem get_context_only_reads
    (env : Env) (chat_id : chat_id_t) (w w' : World) (r : Outcome History)
    (Hrun : get_context env chat_id w = (r, w')) :
  db w' = db w
  /\ (forall h : History,
        r = Ok h -> h = stored_history (db w) chat_id \/ h = []).
Proof.
  split; [exact (get_context_same_table env chat_id w w' r Hrun)|].
  rewrite get_context_run in Hrun. cbn zeta in Hrun.
  intros h ->.
  destruct (op_fails env (length (trace w))); [discriminate Hrun|].
  destruct (op_fails env (length (trace w) + 2)); [discriminate Hrun|].
  injection Hrun as <- _.
  destruct (op_fails env (length (trace w) + 1)); auto.
Qed.

Lemma get_context_only_reads_witness :
  db (snd (get_context (env_failing_at 1 NoResponse) 7
             {| db := <[7 := BlobCorrupt]> ∅; trace := [] |})) =
    <[7 := BlobCorrupt]> ∅.
Proof.
  exact (proj1 (get_context_only_reads (env_failing_at 1 NoResponse) 7
           {| db := <[7 := BlobCorrupt]> ∅; trace := [] |}
           (snd (get_context (env_failing_at 1 NoResponse) 7
                   {| db := <[7 := BlobCorrupt]> ∅; trace := [] |}))
           (fst (get_context (env_failing_at 1 NoResponse) 7
                   {| db := <[7 := BlobCorrupt]> ∅; trace := [] |}))
           eq_refl)).
Defined.

(** X24: whatever fails, [save_context] either leaves the table as it
    was or replaces the row of its chat by the given history, and never
    touches another row; a failed INSERT leaves the table as it was and
    is not raised: the only exceptions that leave [save_context] are
    those of opening and of closing the connection. *)
Theorem save_context_outcomes
    (env : Env) (chat_id : chat_id_t) (h : History)
    (w w' : World) (r : Outcome unit)
    (Hrun : save_context env chat_id h w = (r, w')) :
  (db w' = db w \/ db w' = <[chat_id := BlobJson h]> (db w))
  /\ (forall c : chat_id_t, c <> chat_id -> db w' !! c = db w !! c)
  /\ (op_fails env (length (trace w) + 1) = true -> db w' = db w)
  /\ (forall e : Exn,
        r = Raise e ->
        e = CollaboratorError OpConnect \/ e = CollaboratorError OpClose).
Proof.
  rewrite save_context_run in Hrun. cbn zeta in Hrun.
  destruct (op_fails env (length (trace w))).
  { injection Hrun as <- <-. cbn [db extend].
    repeat split; auto. intros e He. injection He as <-. now left. }
  destruct (op_fails env (length (trace w) + 1));
    destruct (op_fails env (length (trace w) + 2));
    injection Hrun as <- <-; cbn [db];
    (split; [auto|]);
    (split; [intros c Hc; first [reflexivity | now apply lookup_insert_ne]|]);
    (split; [first [reflexivity | discriminate]|]);
    intros e He; first [discriminate He | injection He as <-; now right].
Qed.

Lemma save_context_outcomes_witness :
  fst (save_context (env_failing_at 1 NoResponse) 7
         [ {| role := user; content := str "Hello" |} ] world0) = Ok tt
  /\ db (snd (save_context (env_failing_at 1 NoResponse) 7
                [ {| role := user; content := str "Hello" |} ] world0)) = db world0.
Proof.
  split; [reflexivity|].
  exact (proj1 (proj2 (proj2 (save_context_outcomes (env_failing_at 1 NoResponse) 7
           [ {| role := user; content := str "Hello" |} ] world0
           (snd (save_context (env_failing_at 1 NoResponse) 7
                   [ {| role := user; content := str "Hello" |} ] world0))
           (fst (save_context (env_failing_at 1 NoResponse) 7
                   [ {| role := user; content := str "Hello" |} ] world0))
           eq_refl))) eq_refl).
Defined.
